(** * Risk management engine: a shallow embedding of [src/risk_manager.py]

    The Python module keeps one [RiskManager] object (capital, a dictionary of
    open positions, an equity curve and a history of realised returns) and
    offers statistics over sequences of returns.

    Modelling choices, fixed once for the whole development:
    - a Python [float] is an exact rational [Q]; equality of numbers is [==]
      ([Qeq]) and the comparisons of the code are the boolean tests on [Q].
      Rounding, infinities and NaN are not represented;
    - a raised exception is the outcome [Raise e]; the attributes of the
      object keep whatever was assigned before the exception was raised;
    - where numpy would produce a non-finite value (the mean of an empty
      array, an element-wise division by zero) the outcome is
      [Raise NumpyUndefined];
    - [np.sqrt] is a parameter of the model: the theorems that need it assume
      only that it sends zero to zero;
    - the dictionary of positions is a [gmap] from symbols to positions; the
      sums over its values do not depend on the order of the entries up
      to [==];
    - [datetime.now()] is an explicit argument of [add_position]. *)

From Stdlib Require Import QArith Qround Qabs Lqa ZArith List String.
From stdpp Require Import gmap strings list fin_maps sorting.

Local Open Scope Q_scope.

(** ** Outcomes of a call *)

Inductive exn : Type :=
  | ValueError (msg : string)
  | ZeroDivisionError
  | IndexError
  | NumpyUndefined.

Inductive outcome (A : Type) : Type :=
  | Ok (a : A)
  | Raise (e : exn).

Arguments Ok {A} a.
Arguments Raise {A} e.

Definition outcome_bind {A B : Type} (f : A -> outcome B) (x : outcome A) : outcome B :=
  match x with
  | Ok a => f a
  | Raise e => Raise e
  end.

#[global] Instance outcome_mret : MRet outcome := fun A a => Ok a.
#[global] Instance outcome_mbind : MBind outcome := fun A B f x => outcome_bind f x.

Definition is_value_error {A : Type} (x : outcome A) : Prop :=
  match x with
  | Raise (ValueError _) => True
  | _ => False
  end.

(** ** Numbers as the code uses them *)

(** [x < y] as a test. *)
Definition Qltb (x y : Q) : bool := negb (Qle_bool y x).

(** Python's [a / b] on floats. *)
Definition py_div (a b : Q) : outcome Q :=
  if Qeq_bool b 0 then Raise ZeroDivisionError else Ok (a / b).

(** Python's [int(x)]: truncation towards zero. *)
Definition py_int (x : Q) : Z := Z.quot (Qnum x) (Z.pos (Qden x)).

(** Python's [sum(xs)]: starts from zero and adds from the left. *)
Definition py_sum (xs : list Q) : Q := fold_left Qplus xs 0.

Definition Qle_decide (x y : Q) : Decision (x <= y) :=
  match Qle_bool x y as b return Qle_bool x y = b -> Decision (x <= y) with
  | true => fun H => left (proj1 (Qle_bool_iff x y) H)
  | false => fun H => right (fun L =>
      eq_ind true (fun b => if b then True else False) I false
        (eq_trans (eq_sym (proj2 (Qle_bool_iff x y) L)) H))
  end eq_refl.

#[global] Instance Qle_rel_decision : RelDecision Qle := Qle_decide.

(** ** The part of numpy the module calls *)

(** [np.mean]: NaN on an empty array. *)
Definition np_mean (a : list Q) : outcome Q :=
  match a with
  | [] => Raise NumpyUndefined
  | _ => Ok (fold_right Qplus 0 a / inject_Z (Z.of_nat (length a)))
  end.

(** [np.diff]: consecutive differences. *)
Fixpoint np_diff (a : list Q) : list Q :=
  match a with
  | x :: ((y :: _) as tl) => (y - x) :: np_diff tl
  | _ => []
  end.

(** Element-wise [a / b] of two arrays (of the same length in every use). *)
Fixpoint np_divide (a b : list Q) : outcome (list Q) :=
  match a, b with
  | x :: a', y :: b' =>
      if Qeq_bool y 0 then Raise NumpyUndefined
      else (qs ← np_divide a' b'; Ok (x / y :: qs))
  | _, _ => Ok []
  end.

(** Linear interpolation of a sorted array at the virtual index [h]: between
    the element at [floor h] and the next one (the last one at the end). *)
Definition np_interpolate (s : list Q) (h : Q) : Q :=
  let n := Z.of_nat (length s) in
  let lo := Qfloor h in
  let hi := Z.min (lo + 1) (n - 1) in
  let gamma := h - inject_Z lo in
  let x := nth (Z.to_nat lo) s 0 in
  let y := nth (Z.to_nat hi) s 0 in
  x + (y - x) * gamma.

(** [np.percentile(a, q)] with the default linear interpolation: [q] is
    checked first, the array is sorted, and the value at the virtual index
    [(n - 1) * q / 100] is interpolated between its two neighbours. *)
Definition np_percentile (a : list Q) (q : Q) : outcome Q :=
  if negb (Qle_bool 0 q && Qle_bool q 100) then
    Raise (ValueError "Percentiles must be in the range [0, 100]")
  else
    match a with
    | [] => Raise NumpyUndefined
    | _ =>
        let s := merge_sort Qle a in
        let n := Z.of_nat (length s) in
        Ok (np_interpolate s (inject_Z (n - 1) * (q / 100)))
    end.

(** [returns[returns <= var]]: selection by a boolean mask. *)
Definition np_mask_le (returns : list Q) (var : Q) : list Q :=
  List.filter (fun r => Qle_bool r var) returns.

Section Numpy.

(** [np.sqrt], left abstract. *)
Variable np_sqrt : Q -> Q.

(** [np.std]: population standard deviation. *)
Definition np_std (a : list Q) : outcome Q :=
  m ← np_mean a;
  v ← np_mean (List.map (fun x => (x - m) * (x - m)) a);
  Ok (np_sqrt v).

End Numpy.

(** ** Data model *)

Inductive RiskLevel : Type := LOW | MEDIUM | HIGH | CRITICAL.

(** [RiskLevel.value] *)
Definition RiskLevel_value (l : RiskLevel) : string :=
  match l with
  | LOW => "LOW"
  | MEDIUM => "MEDIUM"
  | HIGH => "HIGH"
  | CRITICAL => "CRITICAL"
  end.

Record Position : Type := mkPosition {
  symbol : string;
  quantity : Q;
  entry_price : Q;
  current_price : Q;
  timestamp : Z
}.

Definition market_value (self : Position) : Q :=
  quantity self * current_price self.

Definition pnl (self : Position) : Q :=
  (current_price self - entry_price self) * quantity self.

Definition pnl_percent (self : Position) : outcome Q :=
  r ← py_div (current_price self) (entry_price self);
  Ok ((r - 1) * 100).

Definition set_current_price (p : Q) (pos : Position) : Position :=
  {| symbol := symbol pos; quantity := quantity pos;
     entry_price := entry_price pos; current_price := p;
     timestamp := timestamp pos |}.

Record RiskMetrics : Type := mkRiskMetrics {
  portfolio_value : Q;
  total_exposure : Q;
  var_95 : Q;
  var_99 : Q;
  expected_shortfall : Q;
  max_drawdown : Q;
  sharpe_ratio : Q;
  volatility : Q;
  beta : Q;
  risk_level : RiskLevel
}.

Record RiskManager : Type := mkRiskManager {
  initial_capital : Q;
  current_capital : Q;
  max_position_size : Q;
  max_portfolio_risk : Q;
  stop_loss_percent : Q;
  positions : gmap string Position;
  equity_curve : list Q;
  returns_history : list Q
}.

(** [RiskManager.__init__] *)
Definition init (initial_capital max_position_size max_portfolio_risk
                 stop_loss_percent : Q) : RiskManager :=
  {| initial_capital := initial_capital;
     current_capital := initial_capital;
     max_position_size := max_position_size;
     max_portfolio_risk := max_portfolio_risk;
     stop_loss_percent := stop_loss_percent;
     positions := ∅;
     equity_curve := [initial_capital];
     returns_history := [] |}.

Definition set_current_capital (c : Q) (self : RiskManager) : RiskManager :=
  {| initial_capital := initial_capital self; current_capital := c;
     max_position_size := max_position_size self;
     max_portfolio_risk := max_portfolio_risk self;
     stop_loss_percent := stop_loss_percent self;
     positions := positions self; equity_curve := equity_curve self;
     returns_history := returns_history self |}.

Definition set_positions (m : gmap string Position) (self : RiskManager) : RiskManager :=
  {| initial_capital := initial_capital self;
     current_capital := current_capital self;
     max_position_size := max_position_size self;
     max_portfolio_risk := max_portfolio_risk self;
     stop_loss_percent := stop_loss_percent self;
     positions := m; equity_curve := equity_curve self;
     returns_history := returns_history self |}.

Definition set_returns_history (h : list Q) (self : RiskManager) : RiskManager :=
  {| initial_capital := initial_capital self;
     current_capital := current_capital self;
     max_position_size := max_position_size self;
     max_portfolio_risk := max_portfolio_risk self;
     stop_loss_percent := stop_loss_percent self;
     positions := positions self; equity_curve := equity_curve self;
     returns_history := h |}.

(** ** Methods that mutate the object: state and exceptions *)

(** A method call takes the object and gives its outcome and the object as
    it is left, also when the call raises. *)
Definition M (A : Type) : Type := RiskManager -> outcome A * RiskManager.

#[global] Instance M_mret : MRet M := fun A a self => (Ok a, self).
#[global] Instance M_mbind : MBind M := fun A B f m self =>
  match m self with
  | (Ok a, self') => f a self'
  | (Raise e, self') => (Raise e, self')
  end.

Definition get : M RiskManager := fun self => (Ok self, self).
Definition modify (f : RiskManager -> RiskManager) : M unit :=
  fun self => (Ok tt, f self).
Definition lift {A : Type} (x : outcome A) : M A := fun self => (x, self).

(** [dict.values()] *)
Definition dict_values (m : gmap string Position) : list Position :=
  (map_to_list m).*2.

(** [sum(pos.market_value for pos in self.positions.values())] *)
Definition positions_value (m : gmap string Position) : Q :=
  py_sum (market_value <$> dict_values m).

(** [sum(abs(pos.market_value) for pos in self.positions.values())] *)
Definition positions_exposure (m : gmap string Position) : Q :=
  py_sum ((fun pos => Qabs (market_value pos)) <$> dict_values m).

Definition add_position (symbol : string) (quantity price : Q) (now : Z) : M unit :=
  self ← get;
  modify (set_positions
    (<[symbol := {| symbol := symbol; quantity := quantity;
                    entry_price := price; current_price := price;
                    timestamp := now |}]> (positions self)));;
  self ← get;
  modify (set_current_capital (current_capital self - quantity * price)).

Definition update_position_price (symbol : string) (new_price : Q) : M unit :=
  self ← get;
  match positions self !! symbol with
  | Some pos =>
      modify (set_positions
        (<[symbol := set_current_price new_price pos]> (positions self)))
  | None => mret tt
  end.

Definition close_position (symbol : string) : M Q :=
  self ← get;
  match positions self !! symbol with
  | Some pos =>
      modify (set_current_capital (current_capital self + market_value pos));;
      let pnl := pnl pos in
      r ← lift (py_div pnl (initial_capital self));
      self ← get;
      modify (set_returns_history (returns_history self ++ [r]));;
      self ← get;
      modify (set_positions (delete symbol (positions self)));;
      mret pnl
  | None => mret 0
  end.

(** ** Methods that only read the object *)

Definition calculate_position_size (self : RiskManager) (price volatility : Q)
    (risk_per_trade : option Q) : outcome Z :=
  let risk_per_trade :=
    match risk_per_trade with
    | None => max_portfolio_risk self
    | Some r => r
    end in
  let max_position_value := current_capital self * max_position_size self in
  let risk_amount := current_capital self * risk_per_trade in
  let stop_distance := price * stop_loss_percent self in
  risk_based_size ←
    (if Qltb 0 stop_distance then py_div risk_amount stop_distance else Ok 0);
  q ← py_div max_position_value price;
  let max_shares := py_int q in
  let risk_shares := py_int risk_based_size in
  Ok (Z.min max_shares risk_shares).

Definition calculate_max_drawdown_step (acc : outcome (Q * Q)) (value : Q)
    : outcome (Q * Q) :=
  '(peak, max_dd) ← acc;
  let peak := if Qltb peak value then value else peak in
  dd ← py_div (peak - value) peak;
  let max_dd := if Qltb max_dd dd then dd else max_dd in
  Ok (peak, max_dd).

Definition calculate_max_drawdown (equity_curve : list Q) : outcome Q :=
  match equity_curve with
  | [] => Raise IndexError
  | first :: _ =>
      '(_, max_dd) ← fold_left calculate_max_drawdown_step equity_curve (Ok (first, 0));
      Ok max_dd
  end.

Definition check_stop_loss (position : Position) (stop_loss_price : Q) : bool :=
  if Qltb 0 (quantity position)
  then Qle_bool (current_price position) stop_loss_price
  else Qle_bool stop_loss_price (current_price position).

Definition _determine_risk_level (max_drawdown var_95 portfolio_value : Q) : RiskLevel :=
  let var_percent :=
    if Qltb 0 portfolio_value then Qabs (var_95 / portfolio_value) else 0 in
  if Qltb 0.25 max_drawdown || Qltb 0.10 var_percent then CRITICAL
  else if Qltb 0.15 max_drawdown || Qltb 0.05 var_percent then HIGH
  else if Qltb 0.08 max_drawdown || Qltb 0.03 var_percent then MEDIUM
  else LOW.

(** Values stored in the dictionary that [get_portfolio_summary] returns. *)
Inductive pyval : Type :=
  | VFloat (x : Q)
  | VInt (n : Z)
  | VStr (s : string).

Section Manager.

Variable np_sqrt : Q -> Q.

Definition calculate_var (returns : list Q) (confidence_level : Q)
    (method : string) : outcome Q :=
  if String.eqb method "historical" then
    np_percentile returns ((1 - confidence_level) * 100)
  else if String.eqb method "parametric" then
    mean ← np_mean returns;
    std ← np_std np_sqrt returns;
    let z_score := if Qeq_bool confidence_level 0.95 then - 1.645 else - 2.326 in
    Ok (mean + z_score * std)
  else Raise (ValueError ("Unknown method: " ++ method)).

Definition calculate_expected_shortfall (returns : list Q)
    (confidence_level : Q) : outcome Q :=
  var ← calculate_var returns confidence_level "historical";
  np_mean (np_mask_le returns var).

Definition calculate_sharpe_ratio (returns : list Q) (risk_free_rate : Q)
    : outcome Q :=
  if (length returns =? 0)%nat then Ok 0
  else
    let excess_returns := List.map (fun r => r - risk_free_rate / 252) returns in
    s ← np_std np_sqrt excess_returns;
    if Qeq_bool s 0 then Ok 0
    else
      m ← np_mean excess_returns;
      s' ← np_std np_sqrt excess_returns;
      Ok (np_sqrt 252 * m / s').

Definition calculate_portfolio_metrics (self : RiskManager) : outcome RiskMetrics :=
  let portfolio_value := positions_value (positions self) in
  let total_exposure := positions_exposure (positions self) in
  returns ←
    (if (1 <? length (equity_curve self))%nat
     then np_divide (np_diff (equity_curve self)) (removelast (equity_curve self))
     else Ok [0]);
  var_95 ←
    (if (0 <? length returns)%nat
     then v ← calculate_var returns 0.95 "historical"; Ok (v * portfolio_value)
     else Ok 0);
  var_99 ←
    (if (0 <? length returns)%nat
     then v ← calculate_var returns 0.99 "historical"; Ok (v * portfolio_value)
     else Ok 0);
  es ←
    (if (0 <? length returns)%nat
     then v ← calculate_expected_shortfall returns 0.95; Ok (v * portfolio_value)
     else Ok 0);
  max_dd ← calculate_max_drawdown (equity_curve self);
  sharpe ← calculate_sharpe_ratio returns 0.02;
  volatility ←
    (if (0 <? length returns)%nat
     then s ← np_std np_sqrt returns; Ok (s * np_sqrt 252)
     else Ok 0);
  let beta := 1 in
  let risk_level := _determine_risk_level max_dd var_95 portfolio_value in
  Ok {| portfolio_value := portfolio_value;
        total_exposure := total_exposure;
        var_95 := var_95;
        var_99 := var_99;
        expected_shortfall := es;
        max_drawdown := max_dd;
        sharpe_ratio := sharpe;
        volatility := volatility;
        beta := beta;
        risk_level := risk_level |}.

Definition get_portfolio_summary (self : RiskManager)
    : outcome (list (string * pyval)) :=
  metrics ← calculate_portfolio_metrics self;
  Ok [ ("capital", VFloat (current_capital self));
       ("portfolio_value", VFloat (portfolio_value metrics));
       ("total_value", VFloat (current_capital self + portfolio_value metrics));
       ("total_pnl", VFloat ((current_capital self + portfolio_value metrics)
                             - initial_capital self));
       ("num_positions", VInt (Z.of_nat (size (positions self))));
       ("risk_level", VStr (RiskLevel_value (risk_level metrics)));
       ("var_95", VFloat (var_95 metrics));
       ("max_drawdown", VFloat (max_drawdown metrics));
       ("sharpe_ratio", VFloat (sharpe_ratio metrics));
       ("volatility", VFloat (volatility metrics)) ].

(** *** Sequences of calls on one manager *)

Inductive call : Type :=
  | AddPosition (symbol : string) (quantity price : Q) (now : Z)
  | UpdatePositionPrice (symbol : string) (new_price : Q)
  | ClosePosition (symbol : string)
  | CalculatePositionSize (price volatility : Q) (risk_per_trade : option Q)
  | CalculatePortfolioMetrics
  | GetPortfolioSummary.

(** What a call returns. *)
Inductive returned : Type :=
  | RNone
  | RFloat (x : Q)
  | RInt (n : Z)
  | RMetrics (m : RiskMetrics)
  | RSummary (d : list (string * pyval)).

(** One call on the object. *)
Definition perform (c : call) : M returned :=
  match c with
  | AddPosition symbol quantity price now =>
      add_position symbol quantity price now;; mret RNone
  | UpdatePositionPrice symbol new_price =>
      update_position_price symbol new_price;; mret RNone
  | ClosePosition symbol =>
      pnl ← close_position symbol; mret (RFloat pnl)
  | CalculatePositionSize price volatility risk_per_trade =>
      self ← get;
      n ← lift (calculate_position_size self price volatility risk_per_trade);
      mret (RInt n)
  | CalculatePortfolioMetrics =>
      self ← get;
      m ← lift (calculate_portfolio_metrics self);
      mret (RMetrics m)
  | GetPortfolioSummary =>
      self ← get;
      d ← lift (get_portfolio_summary self);
      mret (RSummary d)
  end.

(** The object after one call, whether the call returned or raised. *)
Definition after (c : call) (self : RiskManager) : RiskManager :=
  (perform c self).2.

(** The object after a sequence of calls, an exception raised by one of
    them being caught by the caller. *)
Definition run (cs : list call) (self : RiskManager) : RiskManager :=
  fold_left (fun s c => after c s) cs self.

End Manager.

(** A computable square root on [Q] to sixteen decimal places, used to run
    the model on concrete inputs. *)
Definition sqrt_approx (x : Q) : Q :=
  Z.sqrt (Qnum x * Z.pos (Qden x) * 10 ^ 32) # (Qden x * 10 ^ 16).

(** ** Invariants of the drawdown loop

    The state of the loop of [calculate_max_drawdown] is the pair of the
    running peak and the largest drawdown so far. *)

(** The largest drawdown so far is not negative. *)
Definition drawdown_nonneg (acc : outcome (Q * Q)) : Prop :=
  match acc with
  | Ok (_, max_dd) => 0 <= max_dd
  | Raise _ => True
  end.

(** The loop has not raised, the peak is positive and the largest drawdown
    so far lies between zero and one. *)
Definition drawdown_bounded (acc : outcome (Q * Q)) : Prop :=
  match acc with
  | Ok (peak, max_dd) => 0 < peak /\ 0 <= max_dd /\ max_dd <= 1
  | Raise _ => False
  end.

(** ** Severity of a risk level

    The levels in the order of their declaration in the enumeration. *)
Definition severity (l : RiskLevel) : nat :=
  match l with
  | LOW => 0
  | MEDIUM => 1
  | HIGH => 2
  | CRITICAL => 3
  end.

(** ** Reading the summary

    [d[key]] on the dictionary that [get_portfolio_summary] returns. *)
Fixpoint dict_get (d : list (string * pyval)) (key : string) : option pyval :=
  match d with
  | [] => None
  | (k, v) :: d' => if String.eqb k key then Some v else dict_get d' key
  end.

(** ** Concrete inputs *)

(** The manager of the demonstration script after its first two bookings. *)
Definition demo_manager : RiskManager :=
  run sqrt_approx [AddPosition "AAPL" 100 150 0; AddPosition "GOOGL" 50 2800 1]
      (init 100000 0.10 0.02 0.05).

Definition demo_returns : list Q := [0.03; - 0.02; 0.01; - 0.05; 0.02].

(** The snapshot and the summary of the demonstration manager. *)
Definition empty_metrics : RiskMetrics :=
  mkRiskMetrics 0 0 0 0 0 0 0 0 1 LOW.

Definition demo_metrics : RiskMetrics :=
  Eval vm_compute in
    match calculate_portfolio_metrics sqrt_approx demo_manager with
    | Ok m => m
    | Raise _ => empty_metrics
    end.

Definition demo_summary : list (string * pyval) :=
  Eval vm_compute in
    match get_portfolio_summary sqrt_approx demo_manager with
    | Ok d => d
    | Raise _ => []
    end.

(** * Properties *)

(** ** Comparisons and sums *)

Lemma Qltb_true (x y : Q) : Qltb x y = true <-> x < y.
Proof.
  unfold Qltb. rewrite negb_true_iff. split.
  - intros H. apply Qnot_le_lt. intros L.
    apply Qle_bool_iff in L. congruence.
  - intros H. destruct (Qle_bool y x) eqn:E; [|reflexivity].
    apply Qle_bool_iff in E. exfalso. exact (Qlt_not_le _ _ H E).
Qed.

Lemma Qltb_false (x y : Q) : Qltb x y = false <-> y <= x.
Proof.
  unfold Qltb. rewrite negb_false_iff. apply Qle_bool_iff.
Qed.

Lemma Qeq_bool_false (x y : Q) : Qeq_bool x y = false <-> ~ x == y.
Proof.
  split.
  - intros H E. apply Qeq_bool_iff in E. congruence.
  - intros H. destruct (Qeq_bool x y) eqn:E; [|reflexivity].
    apply Qeq_bool_iff in E. contradiction.
Qed.

Lemma py_div_defined (a b : Q) : ~ b == 0 -> py_div a b = Ok (a / b).
Proof.
  intros H. unfold py_div. apply Qeq_bool_false in H. now rewrite H.
Qed.

Lemma py_div_zero (a b : Q) : b == 0 -> py_div a b = Raise ZeroDivisionError.
Proof.
  intros H. unfold py_div. apply Qeq_bool_iff in H. now rewrite H.
Qed.

Lemma fold_left_Qplus (xs : list Q) (a : Q) :
  fold_left Qplus xs a == a + fold_right Qplus 0 xs.
Proof.
  revert a. induction xs as [|x xs IH]; intros a; cbn [fold_left fold_right].
  - ring.
  - rewrite IH. ring.
Qed.

Lemma fold_right_Qplus_perm (xs ys : list Q) :
  xs ≡ₚ ys -> fold_right Qplus 0 xs == fold_right Qplus 0 ys.
Proof.
  induction 1 as [|x xs ys _ IH|x y xs|xs ys zs _ IH1 _ IH2]; cbn [fold_right].
  - reflexivity.
  - now rewrite IH.
  - ring.
  - now rewrite IH1.
Qed.

Lemma py_sum_perm (xs ys : list Q) : xs ≡ₚ ys -> py_sum xs == py_sum ys.
Proof.
  intros H. unfold py_sum. rewrite !fold_left_Qplus.
  now rewrite (fold_right_Qplus_perm _ _ H).
Qed.

Lemma py_sum_cons (x : Q) (xs : list Q) : py_sum (x :: xs) == x + py_sum xs.
Proof.
  unfold py_sum. cbn [fold_left]. rewrite !fold_left_Qplus. ring.
Qed.

(** Deleting a held symbol takes its market value out of the sum. *)
Lemma positions_value_delete (m : gmap string Position) (symbol : string)
    (pos : Position) :
  m !! symbol = Some pos ->
  positions_value (delete symbol m) == positions_value m - market_value pos.
Proof.
  intros H. unfold positions_value, dict_values.
  pose proof (map_to_list_delete m symbol pos H) as P.
  apply (fmap_Permutation snd) in P.
  apply (fmap_Permutation market_value) in P.
  apply py_sum_perm in P. rewrite <- P.
  cbn [fmap list_fmap snd]. rewrite py_sum_cons. ring.
Qed.

(** ** The ledger operations, attribute by attribute *)

Lemma add_position_run (symbol : string) (quantity price : Q) (now : Z)
    (self : RiskManager) :
  add_position symbol quantity price now self =
  (Ok tt,
   set_current_capital (current_capital self - quantity * price)
     (set_positions
        (<[symbol := mkPosition symbol quantity price price now]> (positions self))
        self)).
Proof. reflexivity. Qed.

Lemma update_position_price_held (symbol : string) (new_price : Q)
    (self : RiskManager) (pos : Position) :
  positions self !! symbol = Some pos ->
  update_position_price symbol new_price self =
  (Ok tt,
   set_positions (<[symbol := set_current_price new_price pos]> (positions self)) self).
Proof.
  intros H. unfold update_position_price, get, mbind, M_mbind. simpl.
  now rewrite H.
Qed.

Lemma update_position_price_absent (symbol : string) (new_price : Q)
    (self : RiskManager) :
  positions self !! symbol = None ->
  update_position_price symbol new_price self = (Ok tt, self).
Proof.
  intros H. unfold update_position_price, get, mbind, M_mbind. simpl.
  now rewrite H.
Qed.

Lemma close_position_absent (symbol : string) (self : RiskManager) :
  positions self !! symbol = None ->
  close_position symbol self = (Ok 0, self).
Proof.
  intros H. unfold close_position, get, mbind, M_mbind. simpl.
  now rewrite H.
Qed.

Lemma close_position_held (symbol : string) (self : RiskManager) (pos : Position) :
  positions self !! symbol = Some pos ->
  ~ initial_capital self == 0 ->
  close_position symbol self =
  (Ok (pnl pos),
   set_positions (delete symbol (positions self))
     (set_returns_history (returns_history self ++ [pnl pos / initial_capital self])
        (set_current_capital (current_capital self + market_value pos) self))).
Proof.
  intros H Hic. unfold close_position, get, mbind, M_mbind. simpl.
  rewrite H. simpl. unfold lift. rewrite (py_div_defined _ _ Hic). reflexivity.
Qed.

(** With a zero initial capital the division raises after the capital has
    been credited: the position stays, the capital has changed. *)
Lemma close_position_held_zero_capital (symbol : string) (self : RiskManager)
    (pos : Position) :
  positions self !! symbol = Some pos ->
  initial_capital self == 0 ->
  close_position symbol self =
  (Raise ZeroDivisionError,
   set_current_capital (current_capital self + market_value pos) self).
Proof.
  intros H Hic. unfold close_position, get, mbind, M_mbind. simpl.
  rewrite H. simpl. unfold lift. rewrite (py_div_zero _ _ Hic). reflexivity.
Qed.

Lemma add_position_equity_curve symbol quantity price now self :
  equity_curve (add_position symbol quantity price now self).2 = equity_curve self.
Proof. reflexivity. Qed.

Lemma update_position_price_equity_curve symbol new_price self :
  equity_curve (update_position_price symbol new_price self).2 = equity_curve self.
Proof.
  destruct (positions self !! symbol) as [pos|] eqn:H.
  - now rewrite (update_position_price_held _ _ _ _ H).
  - now rewrite (update_position_price_absent _ _ _ H).
Qed.

Lemma close_position_equity_curve symbol self :
  equity_curve (close_position symbol self).2 = equity_curve self.
Proof.
  destruct (positions self !! symbol) as [pos|] eqn:H.
  - destruct (Qeq_dec (initial_capital self) 0) as [Z|NZ].
    + now rewrite (close_position_held_zero_capital _ _ _ H Z).
    + now rewrite (close_position_held _ _ _ H NZ).
  - now rewrite (close_position_absent _ _ H).
Qed.

Lemma add_position_initial_capital symbol quantity price now self :
  initial_capital (add_position symbol quantity price now self).2 = initial_capital self.
Proof. reflexivity. Qed.

Lemma update_position_price_initial_capital symbol new_price self :
  initial_capital (update_position_price symbol new_price self).2 = initial_capital self.
Proof.
  destruct (positions self !! symbol) as [pos|] eqn:H.
  - now rewrite (update_position_price_held _ _ _ _ H).
  - now rewrite (update_position_price_absent _ _ _ H).
Qed.

Lemma close_position_initial_capital symbol self :
  initial_capital (close_position symbol self).2 = initial_capital self.
Proof.
  destruct (positions self !! symbol) as [pos|] eqn:H.
  - destruct (Qeq_dec (initial_capital self) 0) as [Z|NZ].
    + now rewrite (close_position_held_zero_capital _ _ _ H Z).
    + now rewrite (close_position_held _ _ _ H NZ).
  - now rewrite (close_position_absent _ _ H).
Qed.

(** ** Ledger mutations and the equity curve *)

(** C1 (as the code has it): no ledger mutation appends to the equity
    curve. After [add_position], after [update_position_price] (held symbol
    or not) and after [close_position], in every state, the equity curve is
    the one the call started from. *)
Theorem ledger_mutations_keep_equity_curve (self : RiskManager) :
  (forall symbol quantity price now,
     equity_curve (add_position symbol quantity price now self).2
     = equity_curve self) /\
  (forall symbol new_price,
     equity_curve (update_position_price symbol new_price self).2
     = equity_curve self) /\
  (forall symbol,
     equity_curve (close_position symbol self).2 = equity_curve self).
Proof.
  split; [|split]; intros.
  - apply add_position_equity_curve.
  - apply update_position_price_equity_curve.
  - apply close_position_equity_curve.
Qed.

(** ** [add_position] on a symbol already held *)

(** C9: in every state holding [symbol], [add_position] returns, replaces
    the position by the new booking, and debits the capital by the full
    [quantity * price] with nothing credited back for the position it
    replaces; a second add of the same symbol debits again. *)
Theorem add_position_held_symbol_debits_in_full (self : RiskManager)
    (symbol : string) (old : Position) (quantity price : Q) (now : Z) :
  positions self !! symbol = Some old ->
  let self' := (add_position symbol quantity price now self).2 in
  (add_position symbol quantity price now self).1 = Ok tt /\
  positions self' !! symbol = Some (mkPosition symbol quantity price price now) /\
  current_capital self' == current_capital self - quantity * price /\
  (forall quantity2 price2 now2,
     current_capital (add_position symbol quantity2 price2 now2 self').2
     == current_capital self - quantity * price - quantity2 * price2).
Proof.
  intros _ self'. subst self'. rewrite add_position_run. cbn [fst snd].
  split; [reflexivity|]. split; [|split].
  - cbn. apply lookup_insert_eq.
  - reflexivity.
  - intros. rewrite add_position_run. cbn. reflexivity.
Qed.

(** ** [close_position] *)

(** C8: on an absent symbol [close_position] returns zero and leaves the
    object as it was. On a held symbol (the initial capital being nonzero,
    as the configuration requires, so that the quotient exists) it returns
    the realised P&L, credits the capital with the market value, appends the
    P&L over the initial capital to the return history, and removes the
    position, whose market value leaves the portfolio sum. *)
Theorem close_position_absent_or_held (self : RiskManager) (symbol : string) :
  (positions self !! symbol = None ->
   close_position symbol self = (Ok 0, self)) /\
  (forall pos, positions self !! symbol = Some pos ->
   ~ initial_capital self == 0 ->
   exists self',
     close_position symbol self = (Ok (pnl pos), self') /\
     current_capital self' == current_capital self + market_value pos /\
     returns_history self'
       = returns_history self ++ [pnl pos / initial_capital self] /\
     positions self' = delete symbol (positions self) /\
     positions self' !! symbol = None /\
     positions_value (positions self')
       == positions_value (positions self) - market_value pos /\
     equity_curve self' = equity_curve self /\
     initial_capital self' = initial_capital self).
Proof.
  split.
  - apply close_position_absent.
  - intros pos H Hic. eexists. split.
    + apply (close_position_held _ _ _ H Hic).
    + cbn. split; [reflexivity|]. split; [reflexivity|].
      split; [reflexivity|]. split; [apply lookup_delete_eq|].
      split; [apply (positions_value_delete _ _ _ H)|]. split; reflexivity.
Qed.

(** ** Derived fields of a position *)

(** C5 (as the code has it): for a position with a nonzero entry price,
    [pnl_percent] is current price over entry price, minus one, times one
    hundred: a figure in percentage points. *)
Theorem pnl_percent_in_percentage_points (self : Position) :
  ~ entry_price self == 0 ->
  exists v, pnl_percent self = Ok v /\
    v == (current_price self / entry_price self - 1) * 100.
Proof.
  intros H. unfold pnl_percent. rewrite (py_div_defined _ _ H).
  eexists. split; reflexivity.
Qed.

(** ** Position sizing *)

Lemma py_int_nonneg (x : Q) : 0 <= x -> (0 <= py_int x)%Z.
Proof.
  intros H. unfold py_int. apply Z.quot_pos; [|lia].
  unfold Qle in H. simpl in H. lia.
Qed.

Lemma Qdiv_nonneg (a b : Q) : 0 <= a -> 0 < b -> 0 <= a / b.
Proof.
  intros Ha Hb. unfold Qdiv. apply Qmult_le_0_compat; [assumption|].
  apply Qlt_le_weak, Qinv_lt_0_compat, Hb.
Qed.

(** C4 (as the code has it): with a positive price, a non-negative current
    capital, and non-negative size and risk fractions, the call returns a
    share count that is not negative. *)
Theorem calculate_position_size_nonneg (self : RiskManager)
    (price volatility : Q) (risk_per_trade : option Q) :
  0 < price ->
  0 <= current_capital self ->
  0 <= max_position_size self ->
  0 <= default (max_portfolio_risk self) risk_per_trade ->
  exists n, calculate_position_size self price volatility risk_per_trade = Ok n /\
    (0 <= n)%Z.
Proof.
  intros Hp Hc Hm Hr. unfold calculate_position_size.
  assert (Hp0 : ~ price == 0) by (intros E; rewrite E in Hp; discriminate).
  set (rpt := match risk_per_trade with
              | Some r => r | None => max_portfolio_risk self end).
  assert (Hrpt : 0 <= rpt) by (subst rpt; destruct risk_per_trade; exact Hr).
  assert (Hsize : exists r,
    (if Qltb 0 (price * stop_loss_percent self)
     then py_div (current_capital self * rpt) (price * stop_loss_percent self)
     else Ok 0) = Ok r /\ 0 <= r).
  { destruct (Qltb 0 (price * stop_loss_percent self)) eqn:E.
    - apply Qltb_true in E.
      assert (~ price * stop_loss_percent self == 0)
        by (intros Z; rewrite Z in E; discriminate).
      rewrite py_div_defined by assumption. eexists. split; [reflexivity|].
      apply Qdiv_nonneg; [|exact E]. now apply Qmult_le_0_compat.
    - exists 0. split; [reflexivity|]. discriminate. }
  destruct Hsize as (r & -> & Hr0). cbn.
  rewrite (py_div_defined _ _ Hp0). cbn.
  eexists. split; [reflexivity|].
  apply Z.min_glb.
  - apply py_int_nonneg, Qdiv_nonneg; [|exact Hp]. now apply Qmult_le_0_compat.
  - now apply py_int_nonneg.
Qed.

(** ** Maximum drawdown *)

Lemma calculate_max_drawdown_step_nonneg (acc : outcome (Q * Q)) (value : Q) :
  drawdown_nonneg acc -> drawdown_nonneg (calculate_max_drawdown_step acc value).
Proof.
  destruct acc as [[peak max_dd]|e]; cbn; [|trivial].
  intros H.
  destruct (py_div _ _) as [dd|e]; cbn; [|trivial].
  destruct (Qltb max_dd dd) eqn:E; [|exact H].
  apply Qltb_true in E. apply Qlt_le_weak. eapply Qle_lt_trans; eassumption.
Qed.

Lemma drawdown_fold_nonneg (values : list Q) (acc : outcome (Q * Q)) :
  drawdown_nonneg acc ->
  drawdown_nonneg (fold_left calculate_max_drawdown_step values acc).
Proof.
  revert acc. induction values as [|v values IH]; intros acc H; cbn [fold_left].
  - exact H.
  - apply IH, calculate_max_drawdown_step_nonneg, H.
Qed.

Lemma calculate_max_drawdown_step_bounded (acc : outcome (Q * Q)) (value : Q) :
  0 <= value -> drawdown_bounded acc ->
  drawdown_bounded (calculate_max_drawdown_step acc value).
Proof.
  destruct acc as [[peak max_dd]|e]; cbn; [|trivial].
  intros Hv (Hp & Hd0 & Hd1).
  set (peak' := if Qltb peak value then value else peak).
  assert (Hp' : 0 < peak' /\ value <= peak').
  { subst peak'. destruct (Qltb peak value) eqn:E.
    - apply Qltb_true in E. split; [lra|lra].
    - apply Qltb_false in E. split; [lra|lra]. }
  destruct Hp' as [Hp' Hvp].
  assert (Hnz : ~ peak' == 0) by (intros Z; rewrite Z in Hp'; discriminate).
  rewrite (py_div_defined _ _ Hnz). cbn.
  split; [exact Hp'|].
  assert (Hdd : 0 <= (peak' - value) / peak' /\ (peak' - value) / peak' <= 1).
  { split.
    - apply Qdiv_nonneg; [lra|exact Hp'].
    - apply Qle_shift_div_r; [exact Hp'|lra]. }
  destruct (Qltb max_dd ((peak' - value) / peak')); [exact Hdd|split; assumption].
Qed.

Lemma drawdown_fold_bounded (values : list Q) (acc : outcome (Q * Q)) :
  Forall (fun v => 0 <= v) values -> drawdown_bounded acc ->
  drawdown_bounded (fold_left calculate_max_drawdown_step values acc).
Proof.
  intros Hvs. revert acc.
  induction Hvs as [|v values Hv _ IH]; intros acc H; cbn [fold_left].
  - exact H.
  - apply IH, calculate_max_drawdown_step_bounded; assumption.
Qed.

(** C6 (as the code has it): whenever [calculate_max_drawdown] returns, the
    result is not negative; and on a non-empty curve of non-negative values
    whose first element is not zero it does return, with a result of at
    most one. *)
Theorem calculate_max_drawdown_bounds (equity_curve : list Q) :
  (forall d, calculate_max_drawdown equity_curve = Ok d -> 0 <= d) /\
  (equity_curve <> [] ->
   Forall (fun v => 0 <= v) equity_curve ->
   ~ hd 0 equity_curve == 0 ->
   exists d, calculate_max_drawdown equity_curve = Ok d /\ 0 <= d /\ d <= 1).
Proof.
  unfold calculate_max_drawdown. split.
  - intros d. destruct equity_curve as [|first rest]; [discriminate|].
    pose proof (drawdown_fold_nonneg (first :: rest) (Ok (first, 0))) as H.
    destruct (fold_left _ _ _) as [[peak max_dd]|e]; cbn; [|discriminate].
    intros [= <-]. apply H. cbn. discriminate.
  - intros Hne Hall Hfirst.
    destruct equity_curve as [|first rest]; [contradiction|].
    cbn [hd] in Hfirst.
    assert (Hpos : 0 < first).
    { inversion Hall; subst. apply Qnot_le_lt. intros L. apply Hfirst. lra. }
    pose proof (drawdown_fold_bounded (first :: rest) (Ok (first, 0)) Hall) as H.
    destruct (fold_left _ _ _) as [[peak max_dd]|e]; cbn.
    + exists max_dd. split; [reflexivity|]. apply H. cbn.
      split; [exact Hpos|]. split; discriminate.
    + exfalso. apply H. cbn. split; [exact Hpos|]. split; discriminate.
Qed.

(** ** Parametric VaR *)

Section ParametricVaR.

Variable np_sqrt : Q -> Q.

Lemma np_mean_defined (a : list Q) :
  a <> [] -> exists m, np_mean a = Ok m.
Proof.
  destruct a; [contradiction|]. intros _. eexists. reflexivity.
Qed.

Lemma np_std_defined (a : list Q) :
  a <> [] -> exists s, np_std np_sqrt a = Ok s.
Proof.
  destruct a as [|x a]; [contradiction|]. intros _. eexists. reflexivity.
Qed.

(** The parametric branch does not look at the confidence level beyond the
    test against 0.95: every other level, named in the docstring or not,
    takes the z-score -2.326 of level 0.99. No invalid-argument error is
    raised for it, and on a non-empty sample the call returns the mean plus
    -2.326 times the standard deviation. *)
Lemma parametric_var_unchecked_level (returns : list Q)
    (confidence_level : Q) :
  ~ confidence_level == 0.95 ->
  ~ is_value_error (calculate_var np_sqrt returns confidence_level "parametric") /\
  (returns <> [] ->
   exists mean std,
     np_mean returns = Ok mean /\ np_std np_sqrt returns = Ok std /\
     calculate_var np_sqrt returns confidence_level "parametric"
     = Ok (mean + - 2.326 * std)).
Proof.
  intros Hc. apply Qeq_bool_false in Hc.
  unfold calculate_var. cbn [String.eqb Ascii.eqb Bool.eqb]. rewrite Hc.
  split.
  - destruct returns as [|r returns]; cbn; tauto.
  - intros Hne.
    destruct (np_mean_defined returns Hne) as [mean Hmean].
    destruct (np_std_defined returns Hne) as [std Hstd].
    exists mean, std. rewrite Hmean, Hstd. cbn. auto.
Qed.

End ParametricVaR.

(** ** Percentiles of a sorted sample *)

#[local] Instance Qle_transitive : Transitive Qle := Qle_trans.

#[local] Instance Qle_total : Total Qle.
Proof.
  intros x y. destruct (Qlt_le_dec x y) as [H|H]; [left|right]; lra.
Qed.

Lemma merge_sort_Qle_sorted (a : list Q) : StronglySorted Qle (merge_sort Qle a).
Proof. apply StronglySorted_merge_sort; apply _. Qed.

Lemma merge_sort_Qle_length (a : list Q) : length (merge_sort Qle a) = length a.
Proof. apply Permutation_length, merge_sort_Permutation. Qed.

Lemma sorted_nth_le (s : list Q) :
  StronglySorted Qle s ->
  forall i j : nat, (i <= j)%nat -> (j < length s)%nat -> nth i s 0 <= nth j s 0.
Proof.
  induction 1 as [|a l _ IH Hall]; intros i j Hij Hj; cbn [length] in Hj.
  - lia.
  - destruct i as [|i], j as [|j]; cbn [nth].
    + apply Qle_refl.
    + rewrite List.Forall_forall in Hall. apply Hall, nth_In. lia.
    + lia.
    + apply IH; lia.
Qed.

Lemma Qfloor_range (h : Q) (k : Z) :
  0 <= h -> h <= inject_Z k -> (0 <= Qfloor h <= k)%Z.
Proof.
  intros H0 Hk. split.
  - change 0%Z with (Qfloor (inject_Z 0)). rewrite Qfloor_Z.
    rewrite <- (Qfloor_Z 0). now apply Qfloor_resp_le.
  - rewrite <- (Qfloor_Z k). now apply Qfloor_resp_le.
Qed.

Lemma Qfloor_fraction (h : Q) :
  0 <= h - inject_Z (Qfloor h) /\ h - inject_Z (Qfloor h) < 1.
Proof.
  pose proof (Qfloor_le h) as L. pose proof (Qlt_floor h) as U.
  rewrite inject_Z_plus in U. change (inject_Z 1) with 1 in U.
  split; lra.
Qed.

(** The interpolated value lies between its two neighbours. *)
Lemma np_interpolate_between (s : list Q) (h : Q) :
  StronglySorted Qle s ->
  0 <= h -> h <= inject_Z (Z.of_nat (length s) - 1) ->
  nth (Z.to_nat (Qfloor h)) s 0 <= np_interpolate s h /\
  np_interpolate s h
    <= nth (Z.to_nat (Z.min (Qfloor h + 1) (Z.of_nat (length s) - 1))) s 0.
Proof.
  intros Hs H0 Hn. unfold np_interpolate.
  destruct (Qfloor_range h _ H0 Hn) as [Hlo0 Hlon].
  destruct (Qfloor_fraction h) as [Hg0 Hg1].
  set (lo := Qfloor h) in *.
  set (hi := Z.min (lo + 1) (Z.of_nat (length s) - 1)).
  set (gamma := h - inject_Z lo) in *.
  assert (Hxy : nth (Z.to_nat lo) s 0 <= nth (Z.to_nat hi) s 0)
    by (apply sorted_nth_le; [exact Hs| |]; lia).
  set (x := nth (Z.to_nat lo) s 0) in *.
  set (y := nth (Z.to_nat hi) s 0) in *.
  split; nra.
Qed.

(** The interpolated value does not decrease with the virtual index. *)
Lemma np_interpolate_mono (s : list Q) (h1 h2 : Q) :
  StronglySorted Qle s ->
  0 <= h1 -> h1 <= h2 -> h2 <= inject_Z (Z.of_nat (length s) - 1) ->
  np_interpolate s h1 <= np_interpolate s h2.
Proof.
  intros Hs H0 H12 Hn.
  assert (H1n : h1 <= inject_Z (Z.of_nat (length s) - 1)) by lra.
  assert (H20 : 0 <= h2) by lra.
  destruct (Qfloor_range h1 _ H0 H1n) as [Hlo1 _].
  destruct (Qfloor_range h2 _ H20 Hn) as [_ Hlo2].
  pose proof (Qfloor_resp_le _ _ H12) as Hfl.
  destruct (Z.eq_dec (Qfloor h1) (Qfloor h2)) as [E|NE].
  - unfold np_interpolate. rewrite E.
    set (lo := Qfloor h2) in *.
    set (hi := Z.min (lo + 1) (Z.of_nat (length s) - 1)).
    assert (Hxy : nth (Z.to_nat lo) s 0 <= nth (Z.to_nat hi) s 0)
      by (apply sorted_nth_le; [exact Hs| |]; lia).
    set (x := nth (Z.to_nat lo) s 0) in *.
    set (y := nth (Z.to_nat hi) s 0) in *.
    nra.
  - destruct (np_interpolate_between s h1 Hs H0 H1n) as [_ Hup].
    destruct (np_interpolate_between s h2 Hs H20 Hn) as [Hdown _].
    eapply Qle_trans; [exact Hup|]. eapply Qle_trans; [|exact Hdown].
    apply sorted_nth_le; [exact Hs| |]; lia.
Qed.

Lemma Qdiv_100 (q : Q) : q / 100 == q * (1 # 100).
Proof. reflexivity. Qed.

Lemma virtual_index_range (n : nat) (q : Q) :
  (1 <= n)%nat -> 0 <= q -> q <= 100 ->
  0 <= inject_Z (Z.of_nat n - 1) * (q / 100) /\
  inject_Z (Z.of_nat n - 1) * (q / 100) <= inject_Z (Z.of_nat n - 1).
Proof.
  intros Hn H0 H100.
  assert (Hk : 0 <= inject_Z (Z.of_nat n - 1))
    by (change 0 with (inject_Z 0); rewrite <- Zle_Qle; lia).
  set (k := inject_Z (Z.of_nat n - 1)) in *.
  assert (Ht : 0 <= q / 100 /\ q / 100 <= 1) by (rewrite Qdiv_100; split; lra).
  set (t := q / 100) in *. split; nra.
Qed.

Lemma np_percentile_defined (a : list Q) (q : Q) :
  a <> [] -> 0 <= q -> q <= 100 ->
  np_percentile a q
  = Ok (np_interpolate (merge_sort Qle a)
          (inject_Z (Z.of_nat (length (merge_sort Qle a)) - 1) * (q / 100))).
Proof.
  intros Hne H0 H100. unfold np_percentile.
  apply Qle_bool_iff in H0, H100. rewrite H0, H100. cbn [andb negb].
  destruct a; [contradiction|reflexivity].
Qed.

(** Percentiles of one sample do not decrease with the rank. *)
Lemma np_percentile_mono (a : list Q) (q1 q2 : Q) :
  a <> [] -> 0 <= q1 -> q1 <= q2 -> q2 <= 100 ->
  exists v1 v2, np_percentile a q1 = Ok v1 /\ np_percentile a q2 = Ok v2 /\
    v1 <= v2.
Proof.
  intros Hne H0 H12 H100.
  rewrite !np_percentile_defined by (assumption || lra).
  eexists _, _. split; [reflexivity|]. split; [reflexivity|].
  assert (Hlen : (1 <= length (merge_sort Qle a))%nat).
  { rewrite merge_sort_Qle_length. destruct a; [contradiction|cbn; lia]. }
  destruct (virtual_index_range _ q1 Hlen) as [L1 U1]; [lra|lra|].
  destruct (virtual_index_range _ q2 Hlen) as [L2 U2]; [lra|lra|].
  apply np_interpolate_mono; [apply merge_sort_Qle_sorted|assumption| |assumption].
  assert (Hk : 0 <= inject_Z (Z.of_nat (length (merge_sort Qle a)) - 1))
    by (change 0 with (inject_Z 0); rewrite <- Zle_Qle; lia).
  set (k := inject_Z _) in *.
  assert (Ht : q1 / 100 <= q2 / 100) by (rewrite !Qdiv_100; lra).
  set (t1 := q1 / 100) in *. set (t2 := q2 / 100) in *. nra.
Qed.

(** A percentile is at least the least element of the sample. *)
Lemma np_percentile_ge_min (a : list Q) (q : Q) :
  a <> [] -> 0 <= q -> q <= 100 ->
  exists v, np_percentile a q = Ok v /\
    exists m, In m a /\ (forall r, In r a -> m <= r) /\ m <= v.
Proof.
  intros Hne H0 H100.
  rewrite np_percentile_defined by assumption.
  eexists. split; [reflexivity|].
  pose proof (merge_sort_Qle_sorted a) as Hs.
  pose proof (merge_sort_Permutation Qle a) as Hp.
  assert (Hlen : (1 <= length (merge_sort Qle a))%nat).
  { rewrite merge_sort_Qle_length. destruct a; [contradiction|cbn; lia]. }
  set (s := merge_sort Qle a) in *.
  destruct (virtual_index_range _ q Hlen H0 H100) as [L U].
  destruct (np_interpolate_between s _ Hs L U) as [Hdown _].
  destruct (Qfloor_range _ _ L U) as [Hf0 Hfn].
  exists (nth 0 s 0). split; [|split].
  - apply (Permutation_in _ Hp), nth_In. lia.
  - intros r Hr. apply (Permutation_in _ (Permutation_sym Hp)) in Hr.
    destruct (In_nth _ _ 0 Hr) as (j & Hj & <-).
    apply sorted_nth_le; [exact Hs|lia|exact Hj].
  - eapply Qle_trans; [|exact Hdown].
    apply sorted_nth_le; [exact Hs| |]; lia.
Qed.

(** ** Historical VaR *)

Section HistoricalVaR.

Variable np_sqrt : Q -> Q.

Lemma calculate_var_historical (returns : list Q) (confidence_level : Q) :
  calculate_var np_sqrt returns confidence_level "historical"
  = np_percentile returns ((1 - confidence_level) * 100).
Proof. reflexivity. Qed.

Lemma np_percentile_Ok_range (a : list Q) (q v : Q) :
  np_percentile a q = Ok v -> 0 <= q /\ q <= 100.
Proof.
  unfold np_percentile.
  destruct (Qle_bool 0 q) eqn:E0, (Qle_bool q 100) eqn:E1;
    cbn [andb negb]; try discriminate.
  intros _. split; now apply Qle_bool_iff.
Qed.

Lemma np_mask_le_nonempty (returns : list Q) (m v : Q) :
  In m returns -> m <= v -> np_mask_le returns v <> [].
Proof.
  intros Hin Hle Hnil.
  assert (Hm : In m (np_mask_le returns v)).
  { unfold np_mask_le. apply List.filter_In. split; [exact Hin|].
    now apply Qle_bool_iff. }
  rewrite Hnil in Hm. destruct Hm.
Qed.

(** C7: on every non-empty sample the historical VaR exists at both
    levels and the one at confidence 0.99 is at most the one at 0.95. *)
Theorem historical_var_99_le_var_95 (returns : list Q) :
  returns <> [] ->
  exists v99 v95,
    calculate_var np_sqrt returns 0.99 "historical" = Ok v99 /\
    calculate_var np_sqrt returns 0.95 "historical" = Ok v95 /\
    v99 <= v95.
Proof.
  intros Hne. rewrite !calculate_var_historical.
  apply np_percentile_mono; [exact Hne| | |]; lra.
Qed.

(** C10: on every non-empty sample, at every confidence level between 0
    and 1 the historical VaR exists; and whenever it exists it is at least
    the least element of the sample, so the returns at or below it are
    not an empty selection and [calculate_expected_shortfall] returns
    their mean. *)
Theorem historical_var_tail_nonempty (returns : list Q) (confidence_level : Q) :
  returns <> [] ->
  (0 <= confidence_level -> confidence_level <= 1 ->
   exists v, calculate_var np_sqrt returns confidence_level "historical" = Ok v) /\
  (forall v,
     calculate_var np_sqrt returns confidence_level "historical" = Ok v ->
     (exists m, In m returns /\ (forall r, In r returns -> m <= r) /\ m <= v) /\
     np_mask_le returns v <> [] /\
     exists es,
       calculate_expected_shortfall np_sqrt returns confidence_level = Ok es /\
       np_mean (np_mask_le returns v) = Ok es).
Proof.
  intros Hne. split.
  - intros H0 H1. rewrite calculate_var_historical.
    destruct (np_percentile_ge_min returns ((1 - confidence_level) * 100) Hne)
      as (v & Hv & _); [lra|lra|]. now exists v.
  - intros v Hv.
    assert (Hv' := Hv). rewrite calculate_var_historical in Hv'.
    destruct (np_percentile_Ok_range _ _ _ Hv') as [H0 H100].
    destruct (np_percentile_ge_min returns _ Hne H0 H100)
      as (v' & Hv'' & m & Hin & Hmin & Hmv).
    rewrite Hv' in Hv''. injection Hv'' as <-.
    assert (Hmask : np_mask_le returns v <> [])
      by exact (np_mask_le_nonempty _ _ _ Hin Hmv).
    split; [exists m; auto|]. split; [exact Hmask|].
    unfold calculate_expected_shortfall. rewrite Hv. cbn.
    destruct (np_mean_defined _ Hmask) as [es Hes].
    exists es. split; exact Hes.
Qed.

End HistoricalVaR.

(** ** The equity curve over sequences of calls *)

Section EquityCurveInvariant.

Variable np_sqrt : Q -> Q.

(** What is asked of the square root: zero at zero. *)
Hypothesis np_sqrt_zero : forall x, x == 0 -> np_sqrt x == 0.

Lemma var_95_of_flat_returns :
  exists v, calculate_var np_sqrt [0] 0.95 "historical" = Ok v /\ v == 0.
Proof. eexists. split; [vm_compute; reflexivity|reflexivity]. Qed.

Lemma var_99_of_flat_returns :
  exists v, calculate_var np_sqrt [0] 0.99 "historical" = Ok v /\ v == 0.
Proof. eexists. split; [vm_compute; reflexivity|reflexivity]. Qed.

Lemma expected_shortfall_of_flat_returns :
  exists v, calculate_expected_shortfall np_sqrt [0] 0.95 = Ok v /\ v == 0.
Proof. eexists. split; [vm_compute; reflexivity|reflexivity]. Qed.

Lemma np_std_singleton (x : Q) :
  exists s, np_std np_sqrt [x] = Ok s /\ s == 0.
Proof.
  eexists. split; [reflexivity|]. apply np_sqrt_zero.
  cbn [List.map fold_right length]. field.
Qed.

Lemma calculate_sharpe_ratio_singleton (x risk_free_rate : Q) :
  calculate_sharpe_ratio np_sqrt [x] risk_free_rate = Ok 0.
Proof.
  unfold calculate_sharpe_ratio. cbn [length Nat.eqb List.map].
  destruct (np_std_singleton (x - risk_free_rate / 252)) as (s & -> & Hs).
  cbn [mbind outcome_mbind outcome_bind].
  apply Qeq_bool_iff in Hs. now rewrite Hs.
Qed.

Lemma calculate_max_drawdown_singleton (ic : Q) :
  calculate_max_drawdown [ic]
  = if Qeq_bool ic 0 then Raise ZeroDivisionError else Ok 0.
Proof.
  unfold calculate_max_drawdown. cbn [fold_left].
  unfold calculate_max_drawdown_step.
  cbn [mbind outcome_mbind outcome_bind].
  assert (E : Qltb ic ic = false) by (apply Qltb_false; lra). rewrite E.
  destruct (Qeq_bool ic 0) eqn:Hic.
  - apply Qeq_bool_iff in Hic. now rewrite (py_div_zero _ _ Hic).
  - apply Qeq_bool_false in Hic. rewrite (py_div_defined _ _ Hic).
    cbn [mbind outcome_mbind outcome_bind].
    assert (E2 : Qltb 0 ((ic - ic) / ic) = false).
    { apply Qltb_false.
      assert ((ic - ic) / ic == 0) by (field; exact Hic). lra. }
    now rewrite E2.
Qed.

Lemma _determine_risk_level_zero (var_95 portfolio_value : Q) :
  var_95 == 0 -> _determine_risk_level 0 var_95 portfolio_value = LOW.
Proof.
  intros Hv. unfold _determine_risk_level.
  assert (Hp : (if Qltb 0 portfolio_value
                then Qabs (var_95 / portfolio_value) else 0) == 0).
  { destruct (Qltb 0 portfolio_value) eqn:E; [|reflexivity].
    rewrite Hv. unfold Qdiv. rewrite Qmult_0_l. reflexivity. }
  set (var_percent := if Qltb 0 portfolio_value then _ else _) in *.
  assert (F : forall t, 0 <= t -> Qltb t var_percent = false)
    by (intros t Ht; apply Qltb_false; lra).
  rewrite !F by discriminate. reflexivity.
Qed.

(** On a one-element equity curve the returns are the single value zero. *)
Lemma metrics_of_flat_curve (self : RiskManager) :
  equity_curve self = [initial_capital self] ->
  (~ initial_capital self == 0 ->
   exists m, calculate_portfolio_metrics np_sqrt self = Ok m) /\
  (forall m, calculate_portfolio_metrics np_sqrt self = Ok m ->
     max_drawdown m == 0 /\ var_95 m == 0 /\ var_99 m == 0 /\
     expected_shortfall m == 0 /\ sharpe_ratio m == 0 /\
     volatility m == 0 /\ risk_level m = LOW).
Proof.
  intros Hec. unfold calculate_portfolio_metrics. rewrite Hec.
  cbn [length Nat.ltb Nat.leb mbind outcome_mbind outcome_bind].
  destruct var_95_of_flat_returns as (v95 & -> & H95).
  destruct var_99_of_flat_returns as (v99 & -> & H99).
  destruct expected_shortfall_of_flat_returns as (es & -> & Hes).
  destruct (np_std_singleton 0) as (sd & -> & Hsd).
  rewrite calculate_sharpe_ratio_singleton, calculate_max_drawdown_singleton.
  cbn [mbind outcome_mbind outcome_bind].
  set (pv := positions_value (positions self)).
  assert (H95' : v95 * pv == 0) by (rewrite H95; ring).
  split.
  - intros Hic. apply Qeq_bool_false in Hic. rewrite Hic.
    cbn [mbind outcome_mbind outcome_bind]. eexists. reflexivity.
  - intros m. destruct (Qeq_bool (initial_capital self) 0); [discriminate|].
    cbn [mbind outcome_mbind outcome_bind]. intros [= <-].
    cbn [max_drawdown var_95 var_99 expected_shortfall sharpe_ratio
         volatility risk_level].
    split; [reflexivity|]. split; [exact H95'|].
    split; [rewrite H99; ring|]. split; [rewrite Hes; ring|].
    split; [reflexivity|]. split; [rewrite Hsd; ring|].
    apply _determine_risk_level_zero, H95'.
Qed.

Lemma M_bind_snd {A B : Type} (m : M A) (f : A -> M B) (self : RiskManager)
    (P : RiskManager -> Prop) :
  P (m self).2 -> (forall a s, P s -> P (f a s).2) -> P ((m ≫= f) self).2.
Proof.
  intros Hm Hf. unfold mbind, M_mbind.
  destruct (m self) as [[a|e] s]; cbn [snd] in *; [apply Hf|]; exact Hm.
Qed.

Lemma lift_snd {A : Type} (x : outcome A) (self : RiskManager) :
  (lift x self).2 = self.
Proof. reflexivity. Qed.

(** A call keeps every property of the object that the three mutators keep. *)
Lemma perform_preserves (P : RiskManager -> Prop) :
  (forall symbol quantity price now s,
     P s -> P (add_position symbol quantity price now s).2) ->
  (forall symbol new_price s,
     P s -> P (update_position_price symbol new_price s).2) ->
  (forall symbol s, P s -> P (close_position symbol s).2) ->
  forall c self, P self -> P (after np_sqrt c self).
Proof.
  intros Hadd Hupd Hclose c self HP. unfold after.
  destruct c; cbn [perform]; apply M_bind_snd; auto;
    intros a s Hs; try exact Hs; apply M_bind_snd; auto.
Qed.

Lemma after_equity_curve (c : call) (self : RiskManager) :
  equity_curve (after np_sqrt c self) = equity_curve self.
Proof.
  apply (perform_preserves (fun s => equity_curve s = equity_curve self));
    [| | |reflexivity]; intros.
  - now rewrite add_position_equity_curve.
  - now rewrite update_position_price_equity_curve.
  - now rewrite close_position_equity_curve.
Qed.

Lemma after_initial_capital (c : call) (self : RiskManager) :
  initial_capital (after np_sqrt c self) = initial_capital self.
Proof.
  apply (perform_preserves (fun s => initial_capital s = initial_capital self));
    [| | |reflexivity]; intros.
  - now rewrite add_position_initial_capital.
  - now rewrite update_position_price_initial_capital.
  - now rewrite close_position_initial_capital.
Qed.

Lemma run_equity_curve (cs : list call) (self : RiskManager) :
  equity_curve (run np_sqrt cs self) = equity_curve self /\
  initial_capital (run np_sqrt cs self) = initial_capital self.
Proof.
  revert self. induction cs as [|c cs IH]; intros self; cbn [run fold_left].
  - split; reflexivity.
  - destruct (IH (after np_sqrt c self)) as [He Hi]. unfold run in He, Hi.
    rewrite He, Hi, after_equity_curve, after_initial_capital.
    split; reflexivity.
Qed.

(** C2: after every finite sequence of public calls on a fresh manager the
    equity curve is still the one-element list holding the initial
    capital. With a nonzero initial capital [calculate_portfolio_metrics]
    then returns a snapshot, and every snapshot it returns has zero
    maximum drawdown, zero VaR at both levels, zero expected shortfall,
    zero Sharpe ratio, zero volatility and risk level [LOW], whatever the
    positions held. *)
Theorem equity_curve_stays_initial (initial_capital max_position_size
    max_portfolio_risk stop_loss_percent : Q) (cs : list call) :
  let self := run np_sqrt cs (init initial_capital max_position_size
                                max_portfolio_risk stop_loss_percent) in
  equity_curve self = [initial_capital] /\
  (~ initial_capital == 0 ->
   exists m, calculate_portfolio_metrics np_sqrt self = Ok m) /\
  (forall m, calculate_portfolio_metrics np_sqrt self = Ok m ->
     max_drawdown m == 0 /\ var_95 m == 0 /\ var_99 m == 0 /\
     expected_shortfall m == 0 /\ sharpe_ratio m == 0 /\
     volatility m == 0 /\ risk_level m = LOW).
Proof.
  intros self.
  destruct (run_equity_curve cs (init initial_capital max_position_size
              max_portfolio_risk stop_loss_percent)) as [He Hi].
  fold self in He, Hi. cbn in He, Hi.
  split; [exact He|].
  rewrite <- Hi in He |- *. apply metrics_of_flat_curve, He.
Qed.
End EquityCurveInvariant.

(** * The model on concrete inputs *)

Lemma sqrt_approx_zero (x : Q) : x == 0 -> sqrt_approx x == 0.
Proof.
  intros H. unfold sqrt_approx.
  assert (Hn : Qnum x = 0%Z) by (unfold Qeq in H; simpl in H; lia).
  rewrite Hn. reflexivity.
Qed.

(** *** The scenarios of the demonstration script *)

Example demo_capital_after_first_booking :
  let self := (add_position "AAPL" 100 150 0 (init 100000 0.10 0.02 0.05)).2 in
  current_capital self == 85000 /\ positions_value (positions self) == 15000 /\
  calculate_position_size self 180 0.28 None = Ok 47%Z.
Proof. split; [|split]; vm_compute; reflexivity. Qed.

Example demo_stop_loss_TSLA :
  check_stop_loss (mkPosition "TSLA" 75 250 235 0) 237.5 = true.
Proof. vm_compute. reflexivity. Qed.

Example demo_stop_loss_NVDA :
  check_stop_loss (mkPosition "NVDA" 80 450 440 0) 427.5 = false.
Proof. vm_compute. reflexivity. Qed.

Example risk_level_at_the_boundary :
  _determine_risk_level 0.25 0 100000 = HIGH.
Proof. vm_compute. reflexivity. Qed.

Example historical_var_of_demo_returns :
  exists v, calculate_var sqrt_approx demo_returns 0.95 "historical" = Ok v /\
    v == - 0.044.
Proof. eexists. split; [vm_compute; reflexivity|reflexivity]. Qed.

(** *** C1 *)

(** C1, as stated, fails: on a fresh manager with capital 100000,
    [add_position("AAPL", 100, 150)] leaves the equity curve with its one
    entry, and so do a price update and the closing of that position. *)
Lemma equity_curve_not_longer_after_mutation :
  let s0 := init 100000 0.10 0.02 0.05 in
  let s1 := (add_position "AAPL" 100 150 0 s0).2 in
  let s2 := (update_position_price "AAPL" 155 s1).2 in
  let s3 := (close_position "AAPL" s2).2 in
  positions s1 !! "AAPL" = Some (mkPosition "AAPL" 100 150 150 0) /\
  ~ (length (equity_curve s0) < length (equity_curve s1))%nat /\
  ~ (length (equity_curve s1) < length (equity_curve s2))%nat /\
  ~ (length (equity_curve s2) < length (equity_curve s3))%nat.
Proof.
  split; [vm_compute; reflexivity|].
  split; [|split]; vm_compute; lia.
Qed.

(** *** C2 *)

Lemma equity_curve_stays_initial_witness :
  (forall x, x == 0 -> sqrt_approx x == 0) /\
  equity_curve demo_manager = [100000] /\
  (~ 100000 == 0 ->
   exists m, calculate_portfolio_metrics sqrt_approx demo_manager = Ok m) /\
  (forall m, calculate_portfolio_metrics sqrt_approx demo_manager = Ok m ->
     max_drawdown m == 0 /\ var_95 m == 0 /\ var_99 m == 0 /\
     expected_shortfall m == 0 /\ sharpe_ratio m == 0 /\
     volatility m == 0 /\ risk_level m = LOW).
Proof.
  split; [exact sqrt_approx_zero|].
  exact (equity_curve_stays_initial sqrt_approx sqrt_approx_zero
           100000 0.10 0.02 0.05
           [AddPosition "AAPL" 100 150 0; AddPosition "GOOGL" 50 2800 1]).
Defined.

(** *** C3 *)

(** C3, where the code departs from the claim: the docstring of
    [calculate_var] names 0.95 and 0.99 as the confidence levels and an
    unknown method is refused with [ValueError], but the parametric branch
    does not check the level. At confidence 0.90, which is neither, the call
    raises nothing and returns the very value it returns at 0.99. *)
Lemma parametric_var_at_090_returns :
  ~ (0.90 == 0.95) /\ ~ (0.90 == 0.99) /\
  exists v,
    calculate_var sqrt_approx demo_returns 0.90 "parametric" = Ok v /\
    calculate_var sqrt_approx demo_returns 0.99 "parametric" = Ok v /\
    ~ is_value_error (calculate_var sqrt_approx demo_returns 0.90 "parametric").
Proof.
  split; [intros H; vm_compute in H; discriminate H|].
  split; [intros H; vm_compute in H; discriminate H|].
  eexists. split; [vm_compute; reflexivity|].
  split; [vm_compute; reflexivity|].
  vm_compute. exact (fun F => F).
Qed.

(** *** C4 *)

(** C4, as stated, fails: after the two bookings of the demonstration the
    current capital is -55000, and the size recommended at price 180 is
    -122 shares. *)
Lemma calculate_position_size_negative :
  current_capital demo_manager == - 55000 /\
  calculate_position_size demo_manager 180 0.28 None = Ok (- 122)%Z.
Proof.
  split; vm_compute; reflexivity.
Qed.

Lemma calculate_position_size_nonneg_witness :
  let self := (add_position "AAPL" 100 150 0 (init 100000 0.10 0.02 0.05)).2 in
  0 < 180 /\ 0 <= current_capital self /\ 0 <= max_position_size self /\
  0 <= default (max_portfolio_risk self) None /\
  exists n, calculate_position_size self 180 0.28 None = Ok n /\ (0 <= n)%Z.
Proof.
  intros self.
  assert (Hp : 0 < 180) by reflexivity.
  assert (Hc : 0 <= current_capital self) by (vm_compute; discriminate).
  assert (Hm : 0 <= max_position_size self) by (vm_compute; discriminate).
  assert (Hr : 0 <= default (max_portfolio_risk self) None)
    by (vm_compute; discriminate).
  split; [exact Hp|]. split; [exact Hc|]. split; [exact Hm|].
  split; [exact Hr|].
  exact (calculate_position_size_nonneg self 180 0.28 None Hp Hc Hm Hr).
Defined.

(** *** C5 *)

(** C5, as stated, fails: a position entered at 100 and now at 105 has a
    [pnl_percent] of 5, not of 0.05. *)
Lemma pnl_percent_is_not_a_fraction :
  let pos := mkPosition "AAPL" 100 100 105 0 in
  exists v, pnl_percent pos = Ok v /\ v == 5 /\
    ~ v == current_price pos / entry_price pos - 1.
Proof.
  eexists. split; [vm_compute; reflexivity|].
  split; [reflexivity|]. intros H. vm_compute in H. discriminate H.
Qed.

Lemma pnl_percent_in_percentage_points_witness :
  let pos := mkPosition "AAPL" 100 100 105 0 in
  ~ entry_price pos == 0 /\
  exists v, pnl_percent pos = Ok v /\
    v == (current_price pos / entry_price pos - 1) * 100.
Proof.
  intros pos.
  assert (H : ~ entry_price pos == 0)
    by (intros H; vm_compute in H; discriminate H).
  split; [exact H|].
  exact (pnl_percent_in_percentage_points pos H).
Defined.

(** *** C6 *)

(** C6, as stated, fails: on the curve [100, -50] the first element and the
    running peak (100 throughout) are nonzero and the result is 1.5. *)
Lemma calculate_max_drawdown_above_one :
  exists d, calculate_max_drawdown [100; - 50] = Ok d /\ d == 1.5 /\ ~ d <= 1.
Proof.
  eexists. split; [vm_compute; reflexivity|].
  split; [reflexivity|]. intros H. vm_compute in H. apply H. reflexivity.
Qed.

Lemma calculate_max_drawdown_bounds_witness :
  let curve := [100; 120; 90; 130] in
  (forall d, calculate_max_drawdown curve = Ok d -> 0 <= d) /\
  curve <> [] /\ Forall (fun v => 0 <= v) curve /\ ~ hd 0 curve == 0 /\
  exists d, calculate_max_drawdown curve = Ok d /\ 0 <= d /\ d <= 1.
Proof.
  intros curve.
  assert (Hne : curve <> []) by discriminate.
  assert (Hall : Forall (fun v => 0 <= v) curve)
    by (repeat constructor; discriminate).
  assert (Hhd : ~ hd 0 curve == 0)
    by (intros H; vm_compute in H; discriminate H).
  destruct (calculate_max_drawdown_bounds curve) as [Hlow Hup].
  split; [exact Hlow|]. split; [exact Hne|]. split; [exact Hall|].
  split; [exact Hhd|]. exact (Hup Hne Hall Hhd).
Defined.

(** *** C7 *)

Lemma historical_var_99_le_var_95_witness :
  demo_returns <> [] /\
  exists v99 v95,
    calculate_var sqrt_approx demo_returns 0.99 "historical" = Ok v99 /\
    calculate_var sqrt_approx demo_returns 0.95 "historical" = Ok v95 /\
    v99 <= v95.
Proof.
  assert (Hne : demo_returns <> []) by discriminate.
  split; [exact Hne|].
  exact (historical_var_99_le_var_95 sqrt_approx demo_returns Hne).
Defined.

(** *** C8 *)

Lemma close_position_absent_or_held_witness :
  let pos := mkPosition "AAPL" 100 150 150 0 in
  (positions demo_manager !! "MSFT" = None /\
   close_position "MSFT" demo_manager = (Ok 0, demo_manager)) /\
  (positions demo_manager !! "AAPL" = Some pos /\
   ~ initial_capital demo_manager == 0 /\
   exists self',
     close_position "AAPL" demo_manager = (Ok (pnl pos), self') /\
     current_capital self' == current_capital demo_manager + market_value pos /\
     returns_history self'
       = returns_history demo_manager ++ [pnl pos / initial_capital demo_manager] /\
     positions self' = delete "AAPL" (positions demo_manager) /\
     positions self' !! "AAPL" = None /\
     positions_value (positions self')
       == positions_value (positions demo_manager) - market_value pos /\
     equity_curve self' = equity_curve demo_manager /\
     initial_capital self' = initial_capital demo_manager).
Proof.
  intros pos.
  assert (Habs : positions demo_manager !! "MSFT" = None)
    by (vm_compute; reflexivity).
  assert (Hheld : positions demo_manager !! "AAPL" = Some pos)
    by (vm_compute; reflexivity).
  assert (Hic : ~ initial_capital demo_manager == 0)
    by (intros H; vm_compute in H; discriminate H).
  split.
  - split; [exact Habs|].
    exact (proj1 (close_position_absent_or_held demo_manager "MSFT") Habs).
  - split; [exact Hheld|]. split; [exact Hic|].
    exact (proj2 (close_position_absent_or_held demo_manager "AAPL") pos Hheld Hic).
Defined.

(** *** C9 *)

Lemma add_position_held_symbol_debits_in_full_witness :
  let old := mkPosition "AAPL" 100 150 150 0 in
  positions demo_manager !! "AAPL" = Some old /\
  let self' := (add_position "AAPL" 10 160 2 demo_manager).2 in
  (add_position "AAPL" 10 160 2 demo_manager).1 = Ok tt /\
  positions self' !! "AAPL" = Some (mkPosition "AAPL" 10 160 160 2) /\
  current_capital self' == current_capital demo_manager - 10 * 160 /\
  (forall quantity2 price2 now2,
     current_capital (add_position "AAPL" quantity2 price2 now2 self').2
     == current_capital demo_manager - 10 * 160 - quantity2 * price2).
Proof.
  intros old.
  assert (Hheld : positions demo_manager !! "AAPL" = Some old)
    by (vm_compute; reflexivity).
  split; [exact Hheld|].
  exact (add_position_held_symbol_debits_in_full demo_manager "AAPL" old
           10 160 2 Hheld).
Defined.

(** *** C10 *)

Lemma historical_var_tail_nonempty_witness :
  demo_returns <> [] /\
  (0 <= 0.95 -> 0.95 <= 1 ->
   exists v, calculate_var sqrt_approx demo_returns 0.95 "historical" = Ok v) /\
  (forall v,
     calculate_var sqrt_approx demo_returns 0.95 "historical" = Ok v ->
     (exists m, In m demo_returns /\
        (forall r, In r demo_returns -> m <= r) /\ m <= v) /\
     np_mask_le demo_returns v <> [] /\
     exists es,
       calculate_expected_shortfall sqrt_approx demo_returns 0.95 = Ok es /\
       np_mean (np_mask_le demo_returns v) = Ok es).
Proof.
  assert (Hne : demo_returns <> []) by discriminate.
  split; [exact Hne|].
  exact (historical_var_tail_nonempty sqrt_approx demo_returns 0.95 Hne).
Defined.


(** * Further properties of the engine *)

(** ** The ledger: total value, round trips and frames *)

Lemma positions_value_insert_fresh (m : gmap string Position) (symbol : string)
    (pos : Position) :
  m !! symbol = None ->
  positions_value (<[symbol := pos]> m) == positions_value m + market_value pos.
Proof.
  intros H. unfold positions_value, dict_values.
  pose proof (map_to_list_insert m symbol pos H) as P.
  apply (fmap_Permutation snd) in P.
  apply (fmap_Permutation market_value) in P.
  apply py_sum_perm in P. rewrite P.
  cbn [fmap list_fmap snd]. rewrite py_sum_cons. ring.
Qed.

Lemma positions_value_insert_held (m : gmap string Position) (symbol : string)
    (old pos : Position) :
  m !! symbol = Some old ->
  positions_value (<[symbol := pos]> m)
  == positions_value m - market_value old + market_value pos.
Proof.
  intros H. rewrite <- insert_delete_eq.
  rewrite positions_value_insert_fresh by apply lookup_delete_eq.
  rewrite (positions_value_delete _ _ _ H). reflexivity.
Qed.

(** Booking a symbol that is not held moves cash into the position: the
    capital plus the value of the positions is what it was. *)
Theorem add_position_fresh_symbol_keeps_total_value (self : RiskManager)
    (symbol : string) (quantity price : Q) (now : Z) :
  positions self !! symbol = None ->
  let self' := (add_position symbol quantity price now self).2 in
  current_capital self' + positions_value (positions self')
  == current_capital self + positions_value (positions self).
Proof.
  intros H self'. subst self'. rewrite add_position_run. cbn.
  rewrite (positions_value_insert_fresh _ _ _ H). unfold market_value. cbn.
  ring.
Qed.

(** Booking a symbol that is held drops the replaced position from the
    books: the capital plus the value of the positions falls by the market
    value of the position that was overwritten. *)
Theorem add_position_held_symbol_loses_old_value (self : RiskManager)
    (symbol : string) (old : Position) (quantity price : Q) (now : Z) :
  positions self !! symbol = Some old ->
  let self' := (add_position symbol quantity price now self).2 in
  current_capital self' + positions_value (positions self')
  == current_capital self + positions_value (positions self) - market_value old.
Proof.
  intros H self'. subst self'. rewrite add_position_run. cbn.
  rewrite (positions_value_insert_held _ _ _ _ H). unfold market_value. cbn.
  ring.
Qed.

(** Closing a held position moves its market value back into cash: the
    capital plus the value of the positions is what it was. *)
Theorem close_position_keeps_total_value (self : RiskManager) (symbol : string)
    (pos : Position) :
  positions self !! symbol = Some pos ->
  ~ initial_capital self == 0 ->
  let self' := (close_position symbol self).2 in
  current_capital self' + positions_value (positions self')
  == current_capital self + positions_value (positions self).
Proof.
  intros H Hic self'. subst self'. rewrite (close_position_held _ _ _ H Hic).
  cbn. rewrite (positions_value_delete _ _ _ H). ring.
Qed.

(** A price update on a held symbol changes the value of the positions by
    the quantity times the move of the price, and leaves the capital, the
    return history and every other symbol alone; the position keeps its
    quantity, entry price and timestamp. *)
Theorem update_position_price_held_effect (self : RiskManager) (sym : string)
    (pos : Position) (new_price : Q) :
  positions self !! sym = Some pos ->
  let self' := (update_position_price sym new_price self).2 in
  positions self' !! sym
    = Some (mkPosition (symbol pos) (quantity pos) (entry_price pos)
              new_price (timestamp pos)) /\
  (forall other, other <> sym ->
     positions self' !! other = positions self !! other) /\
  positions_value (positions self')
    == positions_value (positions self)
       + quantity pos * (new_price - current_price pos) /\
  current_capital self' = current_capital self /\
  returns_history self' = returns_history self.
Proof.
  intros H self'. subst self'. rewrite (update_position_price_held _ _ _ _ H).
  cbn. split; [apply lookup_insert_eq|].
  split; [intros other Hne; now apply lookup_insert_ne|].
  split; [|split; reflexivity].
  rewrite (positions_value_insert_held _ _ _ _ H). unfold market_value. cbn.
  ring.
Qed.

(** Booking a symbol and closing it at once gives back the cash: the call
    returns a zero P&L, the capital is what it was before the booking, a
    zero return is recorded, and the symbol is no longer held (so a manager
    that did not hold it has its positions back). *)
Theorem add_then_close_round_trip (self : RiskManager) (symbol : string)
    (quantity price : Q) (now : Z) :
  ~ initial_capital self == 0 ->
  let booked := (add_position symbol quantity price now self).2 in
  exists v r self',
    close_position symbol booked = (Ok v, self') /\
    v == 0 /\
    current_capital self' == current_capital self /\
    returns_history self' = returns_history self ++ [r] /\ r == 0 /\
    positions self' = delete symbol (positions self) /\
    (positions self !! symbol = None -> positions self' = positions self).
Proof.
  intros Hic booked. subst booked. rewrite add_position_run. cbn [snd].
  set (pos := mkPosition symbol quantity price price now).
  set (booked := set_current_capital _ _).
  assert (Hheld : positions booked !! symbol = Some pos)
    by (cbn; apply lookup_insert_eq).
  assert (Hic' : ~ initial_capital booked == 0) by exact Hic.
  rewrite (close_position_held _ _ _ Hheld Hic').
  eexists _, _, _. split; [reflexivity|].
  assert (Hpnl : pnl pos == 0) by (unfold pnl; cbn; ring).
  split; [exact Hpnl|]. cbn.
  split; [unfold market_value; cbn; ring|].
  split; [reflexivity|].
  split; [rewrite Hpnl; unfold Qdiv; ring|].
  assert (Hdel : delete symbol (<[symbol := pos]> (positions self))
                 = delete symbol (positions self)) by apply delete_insert_eq.
  split; [exact Hdel|].
  intros Habs. rewrite Hdel. now apply delete_id.
Qed.

(** Closing is idempotent: once [close_position] has returned for a symbol,
    a second call for that symbol returns zero and changes nothing. *)
Theorem close_position_twice (self self' : RiskManager) (symbol : string)
    (v : Q) :
  close_position symbol self = (Ok v, self') ->
  close_position symbol self' = (Ok 0, self').
Proof.
  intros H. destruct (positions self !! symbol) as [pos|] eqn:Hp.
  - destruct (Qeq_dec (initial_capital self) 0) as [Z|NZ].
    + rewrite (close_position_held_zero_capital _ _ _ Hp Z) in H. discriminate.
    + rewrite (close_position_held _ _ _ Hp NZ) in H.
      injection H as _ <-. apply close_position_absent. cbn.
      apply lookup_delete_eq.
  - rewrite (close_position_absent _ _ Hp) in H. injection H as _ <-.
    now apply close_position_absent.
Qed.

(** The number of open positions: one more after booking a symbol that was
    not held, the same after booking one that was, one less after closing a
    held one. *)
Theorem number_of_positions (self : RiskManager) (symbol : string) :
  (forall quantity price now,
     positions self !! symbol = None ->
     size (positions (add_position symbol quantity price now self).2)
     = S (size (positions self))) /\
  (forall quantity price now,
     is_Some (positions self !! symbol) ->
     size (positions (add_position symbol quantity price now self).2)
     = size (positions self)) /\
  (is_Some (positions self !! symbol) ->
   ~ initial_capital self == 0 ->
   S (size (positions (close_position symbol self).2)) = size (positions self)).
Proof.
  split; [|split].
  - intros quantity price now H. rewrite add_position_run. cbn.
    now apply map_size_insert_None.
  - intros quantity price now H. rewrite add_position_run. cbn.
    now apply map_size_insert_Some.
  - intros [pos H] Hic. rewrite (close_position_held _ _ _ H Hic). cbn.
    rewrite map_size_delete, H. cbn.
    assert (size (positions self) <> 0%nat).
    { intros Z. apply map_size_empty_inv in Z. rewrite Z in H.
      rewrite lookup_empty in H. discriminate. }
    lia.
Qed.

(** ** What no sequence of calls changes *)

Section Runs.

Variable np_sqrt : Q -> Q.

Lemma run_preserves (P : RiskManager -> Prop) :
  (forall c s, P s -> P (after np_sqrt c s)) ->
  forall cs self, P self -> P (run np_sqrt cs self).
Proof.
  intros Hstep cs. unfold run.
  induction cs as [|c cs IH]; intros self HP; cbn [fold_left].
  - exact HP.
  - apply IH, Hstep, HP.
Qed.

Lemma close_position_cases (symbol : string) (self : RiskManager) :
  (close_position symbol self).2 = self \/
  (exists pos, (close_position symbol self).2
     = set_current_capital (current_capital self + market_value pos) self) \/
  (exists pos, (close_position symbol self).2
     = set_positions (delete symbol (positions self))
         (set_returns_history
            (returns_history self ++ [pnl pos / initial_capital self])
            (set_current_capital (current_capital self + market_value pos) self))).
Proof.
  destruct (positions self !! symbol) as [pos|] eqn:H.
  - destruct (Qeq_dec (initial_capital self) 0) as [Z|NZ].
    + right; left. exists pos.
      now rewrite (close_position_held_zero_capital _ _ _ H Z).
    + right; right. exists pos. now rewrite (close_position_held _ _ _ H NZ).
  - left. now rewrite (close_position_absent _ _ H).
Qed.

Lemma update_position_price_cases (symbol : string) (new_price : Q)
    (self : RiskManager) :
  (update_position_price symbol new_price self).2 = self \/
  exists pos, (update_position_price symbol new_price self).2
    = set_positions (<[symbol := set_current_price new_price pos]> (positions self))
        self.
Proof.
  destruct (positions self !! symbol) as [pos|] eqn:H.
  - right. exists pos. now rewrite (update_position_price_held _ _ _ _ H).
  - left. now rewrite (update_position_price_absent _ _ _ H).
Qed.

(** The configuration given to the constructor is never changed: after
    every sequence of calls the initial capital, the position-size and risk
    fractions and the stop-loss fraction are the ones the manager had. *)
Theorem run_keeps_configuration (cs : list call) (self : RiskManager) :
  let self' := run np_sqrt cs self in
  initial_capital self' = initial_capital self /\
  max_position_size self' = max_position_size self /\
  max_portfolio_risk self' = max_portfolio_risk self /\
  stop_loss_percent self' = stop_loss_percent self.
Proof.
  intros self'. subst self'.
  pose (P := fun s : RiskManager =>
    initial_capital s = initial_capital self /\
    max_position_size s = max_position_size self /\
    max_portfolio_risk s = max_portfolio_risk self /\
    stop_loss_percent s = stop_loss_percent self).
  apply (run_preserves P); [|unfold P; tauto].
  intros c s Hs. apply (perform_preserves np_sqrt P); [| | |exact Hs].
  - intros symbol quantity price now s0 H0. rewrite add_position_run. exact H0.
  - intros symbol new_price s0 H0.
    destruct (update_position_price_cases symbol new_price s0) as [->|[pos ->]];
      exact H0.
  - intros symbol s0 H0.
    destruct (close_position_cases symbol s0) as [->|[[pos ->]|[pos ->]]];
      exact H0.
Qed.

(** The return history is append-only: after every sequence of calls it is
    the history the manager had, followed by the returns recorded since. *)
Theorem run_extends_returns_history (cs : list call) (self : RiskManager) :
  exists recorded,
    returns_history (run np_sqrt cs self) = returns_history self ++ recorded.
Proof.
  pose (P := fun s : RiskManager =>
    exists recorded, returns_history s = returns_history self ++ recorded).
  apply (run_preserves P); [|exists []; now rewrite app_nil_r].
  intros c s Hs. apply (perform_preserves np_sqrt P); [| | |exact Hs].
  - intros symbol quantity price now s0 H0. rewrite add_position_run. exact H0.
  - intros symbol new_price s0 H0.
    destruct (update_position_price_cases symbol new_price s0) as [->|[pos ->]];
      exact H0.
  - intros symbol s0 [recorded H0].
    destruct (close_position_cases symbol s0) as [->|[[pos ->]|[pos ->]]].
    + now exists recorded.
    + now exists recorded.
    + exists (recorded ++ [pnl pos / initial_capital s0]). cbn.
      rewrite H0. now rewrite app_assoc.
Qed.

End Runs.

(** ** Position sizing: the two limits *)

Lemma py_int_le (x : Q) : 0 <= x -> inject_Z (py_int x) <= x.
Proof.
  intros H. unfold py_int.
  assert (Hn : (0 <= Qnum x)%Z) by (unfold Qle in H; simpl in H; lia).
  rewrite Z.quot_div_nonneg by lia.
  pose proof (Qfloor_le x) as F. destruct x as [n d]. exact F.
Qed.

Lemma calculate_position_size_positive_price (self : RiskManager)
    (price volatility : Q) (risk_per_trade : option Q) :
  0 < price ->
  exists r,
    (if Qltb 0 (price * stop_loss_percent self)
     then py_div (current_capital self
                  * default (max_portfolio_risk self) risk_per_trade)
                 (price * stop_loss_percent self)
     else Ok 0) = Ok r /\
    calculate_position_size self price volatility risk_per_trade
    = Ok (Z.min (py_int (current_capital self * max_position_size self / price))
                (py_int r)).
Proof.
  intros Hp. unfold calculate_position_size.
  assert (Hp0 : ~ price == 0) by (intros E; rewrite E in Hp; discriminate).
  replace (match risk_per_trade with
           | Some r => r | None => max_portfolio_risk self end)
    with (default (max_portfolio_risk self) risk_per_trade)
    by (destruct risk_per_trade; reflexivity).
  destruct (Qltb 0 (price * stop_loss_percent self)) eqn:E.
  - apply Qltb_true in E.
    assert (~ price * stop_loss_percent self == 0)
      by (intros Z; rewrite Z in E; discriminate).
    rewrite py_div_defined by assumption. eexists. split; [reflexivity|].
    cbn. rewrite (py_div_defined _ _ Hp0). reflexivity.
  - exists 0. split; [reflexivity|]. cbn.
    rewrite (py_div_defined _ _ Hp0). reflexivity.
Qed.

(** The exposure limit: at a positive price, when the capital times the
    position-size fraction is not negative, the call returns a size whose
    cost at that price is at most that amount. *)
Theorem calculate_position_size_within_exposure_limit (self : RiskManager)
    (price volatility : Q) (risk_per_trade : option Q) :
  0 < price ->
  0 <= current_capital self * max_position_size self ->
  exists n, calculate_position_size self price volatility risk_per_trade = Ok n /\
    inject_Z n * price <= current_capital self * max_position_size self.
Proof.
  intros Hp Hm.
  destruct (calculate_position_size_positive_price self price volatility
              risk_per_trade Hp) as (r & _ & ->).
  eexists. split; [reflexivity|].
  set (q := current_capital self * max_position_size self / price).
  assert (Hq : 0 <= q) by (apply Qdiv_nonneg; assumption).
  pose proof (py_int_le q Hq) as Hle.
  assert (Hmin : inject_Z (Z.min (py_int q) (py_int r)) <= inject_Z (py_int q))
    by (rewrite <- Zle_Qle; lia).
  assert (Hqp : q * price == current_capital self * max_position_size self).
  { subst q. field. intros E. rewrite E in Hp. discriminate. }
  rewrite <- Hqp.
  apply Qmult_le_compat_r; [|lra]. lra.
Qed.

(** The risk limit: at a positive price and with a positive stop-loss
    fraction, when the amount at risk (capital times risk per trade) is not
    negative, the call returns a size whose loss at the stop distance is at
    most that amount. *)
Theorem calculate_position_size_within_risk_limit (self : RiskManager)
    (price volatility : Q) (risk_per_trade : option Q) :
  0 < price ->
  0 < stop_loss_percent self ->
  0 <= current_capital self * default (max_portfolio_risk self) risk_per_trade ->
  exists n, calculate_position_size self price volatility risk_per_trade = Ok n /\
    inject_Z n * (price * stop_loss_percent self)
    <= current_capital self * default (max_portfolio_risk self) risk_per_trade.
Proof.
  intros Hp Hs Hr.
  destruct (calculate_position_size_positive_price self price volatility
              risk_per_trade Hp) as (r & Hrb & ->).
  eexists. split; [reflexivity|].
  assert (Hsd : 0 < price * stop_loss_percent self)
    by (apply Qmult_lt_0_compat; assumption).
  assert (Hsd0 : ~ price * stop_loss_percent self == 0)
    by (intros E; rewrite E in Hsd; discriminate).
  apply Qltb_true in Hsd. rewrite Hsd in Hrb. apply Qltb_true in Hsd.
  rewrite (py_div_defined _ _ Hsd0) in Hrb. injection Hrb as <-.
  set (ra := current_capital self * default (max_portfolio_risk self) risk_per_trade) in *.
  set (sd := price * stop_loss_percent self) in *.
  assert (Hq : 0 <= ra / sd) by (apply Qdiv_nonneg; assumption).
  pose proof (py_int_le _ Hq) as Hle.
  set (a := py_int (current_capital self * max_position_size self / price)).
  assert (Hmin : inject_Z (Z.min a (py_int (ra / sd))) <= inject_Z (py_int (ra / sd)))
    by (rewrite <- Zle_Qle; lia).
  assert (Hqs : ra / sd * sd == ra) by (field; exact Hsd0).
  apply Qle_trans with (ra / sd * sd).
  - apply Qmult_le_compat_r; lra.
  - apply Qle_lteq. right. exact Hqs.
Qed.

(** A zero price is not guarded: the stop distance is zero, so the risk
    size falls back to zero, and the exposure quotient then divides by
    zero. *)
Theorem calculate_position_size_zero_price (self : RiskManager)
    (price volatility : Q) (risk_per_trade : option Q) :
  price == 0 ->
  calculate_position_size self price volatility risk_per_trade
  = Raise ZeroDivisionError.
Proof.
  intros Hp. unfold calculate_position_size.
  assert (E : Qltb 0 (price * stop_loss_percent self) = false).
  { apply Qltb_false. rewrite Hp. lra. }
  rewrite E. cbn. now rewrite (py_div_zero _ _ Hp).
Qed.

(** ** Maximum drawdown: flat and rising curves, declines, a zero start *)

Lemma drawdown_fold_raise (values : list Q) (e : exn) :
  fold_left calculate_max_drawdown_step values (Raise e) = Raise e.
Proof.
  induction values as [|v values IH]; cbn [fold_left]; [reflexivity|exact IH].
Qed.

Lemma drawdown_fold_rising (values : list Q) :
  StronglySorted Qle values ->
  forall peak, 0 < peak -> Forall (Qle peak) values ->
  exists peak', fold_left calculate_max_drawdown_step values (Ok (peak, 0))
                = Ok (peak', 0).
Proof.
  induction 1 as [|v values _ IH Hall]; intros peak Hp Hge; cbn [fold_left].
  - now exists peak.
  - inversion Hge as [|? ? Hv Hrest]; subst.
    unfold calculate_max_drawdown_step at 2.
    cbn [mbind outcome_mbind outcome_bind].
    set (peak' := if Qltb peak v then v else peak).
    assert (Hp' : 0 < peak' /\ peak' == v).
    { subst peak'. destruct (Qltb peak v) eqn:E.
      - split; [lra|reflexivity].
      - apply Qltb_false in E. split; [exact Hp|lra]. }
    destruct Hp' as [Hp' Hpv].
    assert (Hnz : ~ peak' == 0) by (intros Z; rewrite Z in Hp'; discriminate).
    rewrite (py_div_defined _ _ Hnz). cbn [mbind outcome_mbind outcome_bind].
    assert (Hdd : Qltb 0 ((peak' - v) / peak') = false).
    { apply Qltb_false.
      assert ((peak' - v) / peak' == 0) by (rewrite Hpv; field; lra). lra. }
    rewrite Hdd. apply IH; [exact Hp'|].
    eapply Forall_impl; [exact Hall|]. intros x Hx. cbn in Hx. lra.
Qed.

(** On a curve that never falls (each value at least the one before it) and
    starts above zero, the maximum drawdown is zero; a constant curve is one
    such. *)
Theorem calculate_max_drawdown_rising_curve (first : Q) (rest : list Q) :
  0 < first ->
  Sorted Qle (first :: rest) ->
  calculate_max_drawdown (first :: rest) = Ok 0.
Proof.
  intros Hp Hs. apply Sorted_StronglySorted in Hs; [|apply _].
  unfold calculate_max_drawdown.
  destruct (drawdown_fold_rising _ Hs first Hp) as [peak' ->]; [|reflexivity].
  apply StronglySorted_inv in Hs. destruct Hs as [_ Hall].
  constructor; [apply Qle_refl|exact Hall].
Qed.

(** A curve that starts at zero makes the first quotient divide by zero,
    whatever follows. *)
Theorem calculate_max_drawdown_zero_start (first : Q) (rest : list Q) :
  first == 0 ->
  calculate_max_drawdown (first :: rest) = Raise ZeroDivisionError.
Proof.
  intros Hz. unfold calculate_max_drawdown. cbn [fold_left].
  unfold calculate_max_drawdown_step at 2.
  cbn [mbind outcome_mbind outcome_bind].
  assert (E : Qltb first first = false) by (apply Qltb_false; lra).
  rewrite E, (py_div_zero _ _ Hz). cbn [mbind outcome_mbind outcome_bind].
  now rewrite drawdown_fold_raise.
Qed.

Lemma drawdown_ratio_mono (a p b : Q) :
  0 < a -> a <= p -> 0 <= b -> (a - b) / a <= (p - b) / p.
Proof.
  intros Ha Hap Hb.
  assert (Hp : 0 < p) by lra.
  apply Qle_shift_div_l; [exact Hp|].
  assert (E : (a - b) / a * p == p - b * (p / a)) by (field; lra).
  rewrite E.
  assert (1 <= p / a) by (apply Qle_shift_div_l; lra).
  nra.
Qed.

Lemma drawdown_step_grows (peak max_dd value : Q) :
  0 < peak -> 0 <= value ->
  exists peak' max_dd',
    calculate_max_drawdown_step (Ok (peak, max_dd)) value = Ok (peak', max_dd') /\
    peak <= peak' /\ value <= peak' /\ max_dd <= max_dd' /\
    (peak - value) / peak <= max_dd'.
Proof.
  intros Hp Hv. unfold calculate_max_drawdown_step.
  cbn [mbind outcome_mbind outcome_bind].
  set (peak' := if Qltb peak value then value else peak).
  assert (Hp' : peak <= peak' /\ value <= peak').
  { subst peak'. destruct (Qltb peak value) eqn:E.
    - apply Qltb_true in E. split; lra.
    - apply Qltb_false in E. split; lra. }
  destruct Hp' as [Hpp Hvp].
  assert (Hnz : ~ peak' == 0) by (intros Z; rewrite Z in Hpp; lra).
  rewrite (py_div_defined _ _ Hnz). cbn [mbind outcome_mbind outcome_bind].
  eexists _, _. split; [reflexivity|].
  split; [exact Hpp|]. split; [exact Hvp|].
  pose proof (drawdown_ratio_mono peak peak' value Hp Hpp Hv) as Hr.
  destruct (Qltb max_dd ((peak' - value) / peak')) eqn:E.
  - apply Qltb_true in E. split; lra.
  - apply Qltb_false in E. split; lra.
Qed.

Lemma drawdown_fold_grows (values : list Q) :
  Forall (fun v => 0 <= v) values ->
  forall peak max_dd, 0 < peak ->
  exists peak' max_dd',
    fold_left calculate_max_drawdown_step values (Ok (peak, max_dd))
    = Ok (peak', max_dd') /\
    peak <= peak' /\ max_dd <= max_dd' /\ Forall (fun v => v <= peak') values.
Proof.
  induction 1 as [|v values Hv _ IH]; intros peak max_dd Hp; cbn [fold_left].
  - exists peak, max_dd. split; [reflexivity|].
    split; [lra|]. split; [lra|constructor].
  - destruct (drawdown_step_grows peak max_dd v Hp Hv)
      as (p1 & d1 & -> & Hpp & Hvp & Hdd & _).
    destruct (IH p1 d1) as (p2 & d2 & -> & Hpp2 & Hdd2 & Hall); [lra|].
    exists p2, d2. split; [reflexivity|].
    split; [lra|]. split; [lra|]. constructor; [lra|exact Hall].
Qed.

Lemma drawdown_fold_decline (before after : list Q) (trough : Q) :
  Forall (fun v => 0 <= v) (before ++ trough :: after) ->
  forall peak max_dd, 0 < peak ->
  exists peak' max_dd',
    fold_left calculate_max_drawdown_step (before ++ trough :: after)
      (Ok (peak, max_dd)) = Ok (peak', max_dd') /\
    (peak - trough) / peak <= max_dd'.
Proof.
  intros Hall peak max_dd Hp.
  apply Forall_app in Hall. destruct Hall as [Hb Hta].
  inversion Hta as [|? ? Ht Ha]; subst.
  rewrite fold_left_app. cbn [fold_left].
  destruct (drawdown_fold_grows before Hb peak max_dd Hp)
    as (p1 & d1 & -> & Hpp & _ & _).
  assert (Hp1 : 0 < p1) by lra.
  destruct (drawdown_step_grows p1 d1 trough Hp1 Ht)
    as (p2 & d2 & -> & Hpp2 & _ & _ & Hr).
  destruct (drawdown_fold_grows after Ha p2 d2) as (p3 & d3 & -> & _ & Hdd & _);
    [lra|].
  exists p3, d3. split; [reflexivity|].
  pose proof (drawdown_ratio_mono peak p1 trough Hp Hpp Ht). lra.
Qed.

(** On a curve of non-negative values that starts above zero, the result is
    at least every decline of the curve: for a value [high] and any later
    value [low], the fall from [high] to [low] as a fraction of [high]. *)
Theorem calculate_max_drawdown_dominates_declines
    (before between after : list Q) (high low : Q) :
  let curve := before ++ high :: between ++ low :: after in
  Forall (fun v => 0 <= v) curve ->
  ~ hd 0 curve == 0 ->
  0 < high ->
  exists d, calculate_max_drawdown curve = Ok d /\ (high - low) / high <= d.
Proof.
  intros curve Hall Hfirst Hhigh.
  assert (Hcurve : exists first rest, curve = first :: rest /\ 0 < first).
  { subst curve. destruct before as [|f before]; cbn in *.
    - eexists _, _. split; [reflexivity|exact Hhigh].
    - eexists _, _. split; [reflexivity|].
      inversion Hall; subst. apply Qnot_le_lt. intros L. apply Hfirst. lra. }
  destruct Hcurve as (first & rest & Hc & Hpos).
  unfold calculate_max_drawdown. rewrite Hc. rewrite <- Hc. clear Hc rest.
  subst curve.
  replace (before ++ high :: between ++ low :: after)
    with ((before ++ [high]) ++ between ++ low :: after) in *
    by (rewrite <- app_assoc; reflexivity).
  apply Forall_app in Hall. destruct Hall as [Hbh Hrest].
  rewrite fold_left_app.
  destruct (drawdown_fold_grows _ Hbh first 0 Hpos)
    as (p1 & d1 & -> & Hpp & _ & Hle).
  assert (Hhp : high <= p1).
  { apply Forall_app in Hle. destruct Hle as [_ Hh].
    inversion Hh; subst. assumption. }
  assert (Hp1 : 0 < p1) by lra.
  destruct (drawdown_fold_decline between after low Hrest p1 d1 Hp1)
    as (p2 & d2 & -> & Hr).
  exists d2. split; [reflexivity|].
  assert (Hlow : 0 <= low).
  { apply Forall_app in Hrest. destruct Hrest as [_ Hl].
    inversion Hl; subst. assumption. }
  pose proof (drawdown_ratio_mono high p1 low Hhigh Hhp Hlow). lra.
Qed.

(** ** Risk classification *)

Lemma Qltb_proper (x x' y y' : Q) : x == x' -> y == y' -> Qltb x y = Qltb x' y'.
Proof.
  intros Hx Hy. unfold Qltb. f_equal. now apply Qleb_comp.
Qed.

Ltac risk_level_cases :=
  repeat match goal with
  | |- context [Qltb ?a ?b] =>
      let E := fresh "E" in
      destruct (Qltb a b) eqn:E;
      [apply Qltb_true in E|apply Qltb_false in E]
  end.

(** A deeper drawdown never lowers the level: for the same VaR and
    portfolio value, the level at the larger maximum drawdown is at least
    as severe. *)
Theorem risk_level_monotone_in_drawdown
    (max_drawdown1 max_drawdown2 var_95 portfolio_value : Q) :
  max_drawdown1 <= max_drawdown2 ->
  (severity (_determine_risk_level max_drawdown1 var_95 portfolio_value)
   <= severity (_determine_risk_level max_drawdown2 var_95 portfolio_value))%nat.
Proof.
  intros H. unfold _determine_risk_level.
  set (var_percent := if Qltb 0 portfolio_value then _ else _).
  risk_level_cases; cbn; try lia; exfalso; lra.
Qed.

(** With a portfolio value that is not positive the VaR plays no part: the
    level is the one the maximum drawdown alone gives. *)
Theorem risk_level_ignores_var_without_value
    (max_drawdown var_95 var_95' portfolio_value : Q) :
  portfolio_value <= 0 ->
  _determine_risk_level max_drawdown var_95 portfolio_value
  = _determine_risk_level max_drawdown var_95' portfolio_value.
Proof.
  intros H. unfold _determine_risk_level.
  apply Qltb_false in H. now rewrite H.
Qed.

(** The drawdown bands. A maximum drawdown above 0.25 is CRITICAL whatever
    the VaR and the portfolio value. When the VaR is zero or the portfolio
    value is not positive the level follows the drawdown alone: CRITICAL
    above 0.25, HIGH above 0.15 and up to 0.25, MEDIUM above 0.08 and up to
    0.15, LOW up to 0.08. The comparisons are strict, so a drawdown on a
    threshold falls in the lower level. *)
Theorem risk_level_drawdown_bands (max_drawdown var_95 portfolio_value : Q) :
  (0.25 < max_drawdown ->
   _determine_risk_level max_drawdown var_95 portfolio_value = CRITICAL) /\
  (var_95 == 0 \/ portfolio_value <= 0 ->
   let level := _determine_risk_level max_drawdown var_95 portfolio_value in
   (level = CRITICAL <-> 0.25 < max_drawdown) /\
   (level = HIGH <-> 0.15 < max_drawdown /\ max_drawdown <= 0.25) /\
   (level = MEDIUM <-> 0.08 < max_drawdown /\ max_drawdown <= 0.15) /\
   (level = LOW <-> max_drawdown <= 0.08)).
Proof.
  split.
  - intros H. unfold _determine_risk_level.
    apply Qltb_true in H. now rewrite H.
  - intros Hv level. subst level. unfold _determine_risk_level.
    assert (Hp : (if Qltb 0 portfolio_value
                  then Qabs (var_95 / portfolio_value) else 0) == 0).
    { destruct Hv as [Hv|Hv].
      - destruct (Qltb 0 portfolio_value); [|reflexivity].
        rewrite Hv. unfold Qdiv. rewrite Qmult_0_l. reflexivity.
      - apply Qltb_false in Hv. now rewrite Hv. }
    set (var_percent := if Qltb 0 portfolio_value then _ else _) in *.
    assert (F : forall t, 0 <= t -> Qltb t var_percent = false)
      by (intros t Ht; apply Qltb_false; lra).
    rewrite !F by discriminate. rewrite !orb_false_r.
    destruct (Qltb 0.25 max_drawdown) eqn:D25;
    destruct (Qltb 0.15 max_drawdown) eqn:D15;
    destruct (Qltb 0.08 max_drawdown) eqn:D08;
    repeat match goal with
    | H : Qltb _ max_drawdown = true |- _ => apply Qltb_true in H
    | H : Qltb _ max_drawdown = false |- _ => apply Qltb_false in H
    end;
    (split; [|split; [|split]]);
    (split;
     [intros X; try discriminate X; first [lra | split; lra]
     |intros X; try reflexivity; exfalso; first [lra | destruct X; lra]]).
Qed.

(** ** Statistics over a sample of returns *)

Lemma np_percentile_le_max (a : list Q) (q : Q) :
  a <> [] -> 0 <= q -> q <= 100 ->
  exists v, np_percentile a q = Ok v /\
    exists m, In m a /\ (forall r, In r a -> r <= m) /\ v <= m.
Proof.
  intros Hne H0 H100.
  rewrite np_percentile_defined by assumption.
  eexists. split; [reflexivity|].
  pose proof (merge_sort_Qle_sorted a) as Hs.
  pose proof (merge_sort_Permutation Qle a) as Hp.
  assert (Hlen : (1 <= length (merge_sort Qle a))%nat).
  { rewrite merge_sort_Qle_length. destruct a; [contradiction|cbn; lia]. }
  set (s := merge_sort Qle a) in *.
  destruct (virtual_index_range _ q Hlen H0 H100) as [L U].
  destruct (np_interpolate_between s _ Hs L U) as [_ Hup].
  destruct (Qfloor_range _ _ L U) as [Hf0 Hfn].
  exists (nth (length s - 1) s 0). split; [|split].
  - apply (Permutation_in _ Hp), nth_In. lia.
  - intros r Hr. apply (Permutation_in _ (Permutation_sym Hp)) in Hr.
    destruct (In_nth _ _ 0 Hr) as (j & Hj & <-).
    apply sorted_nth_le; [exact Hs| |]; lia.
  - eapply Qle_trans; [exact Hup|].
    apply sorted_nth_le; [exact Hs| |]; lia.
Qed.

Lemma fold_right_Qplus_le (l : list Q) (v : Q) :
  Forall (fun r => r <= v) l ->
  fold_right Qplus 0 l <= inject_Z (Z.of_nat (length l)) * v.
Proof.
  induction 1 as [|r l Hr _ IH]; cbn [fold_right length].
  - change (inject_Z (Z.of_nat 0)) with 0. lra.
  - rewrite Nat2Z.inj_succ. unfold Z.succ. rewrite inject_Z_plus.
    change (inject_Z 1) with 1. nra.
Qed.

Lemma length_positive (l : list Q) :
  l <> [] -> 0 < inject_Z (Z.of_nat (length l)).
Proof.
  intros H. change 0 with (inject_Z 0). rewrite <- Zlt_Qlt.
  destruct l; [contradiction|cbn [length]; lia].
Qed.

Lemma np_mean_le (l : list Q) (v : Q) :
  l <> [] -> Forall (fun r => r <= v) l ->
  exists m, np_mean l = Ok m /\ m <= v.
Proof.
  intros Hne Hall. pose proof (length_positive l Hne) as Hn.
  pose proof (fold_right_Qplus_le l v Hall) as Hs.
  destruct l as [|r l]; [contradiction|].
  eexists. split; [reflexivity|].
  apply Qle_shift_div_r; [exact Hn|]. lra.
Qed.

Section Statistics.

Variable np_sqrt : Q -> Q.

(** A method other than ['historical'] and ['parametric'] is refused with
    an invalid-argument error that names it, whatever the sample and the
    confidence level. *)
Theorem calculate_var_unknown_method (returns : list Q) (confidence_level : Q)
    (method : string) :
  method <> "historical" -> method <> "parametric" ->
  calculate_var np_sqrt returns confidence_level method
  = Raise (ValueError ("Unknown method: " ++ method)).
Proof.
  intros Hh Hp. unfold calculate_var.
  apply String.eqb_neq in Hh, Hp. now rewrite Hh, Hp.
Qed.

(** A higher confidence level never gives a higher historical VaR: for
    levels in [0, 1] both exist and the one at the higher level is the
    smaller. *)
Theorem historical_var_decreases_with_confidence (returns : list Q)
    (c1 c2 : Q) :
  returns <> [] -> 0 <= c1 -> c1 <= c2 -> c2 <= 1 ->
  exists v1 v2,
    calculate_var np_sqrt returns c1 "historical" = Ok v1 /\
    calculate_var np_sqrt returns c2 "historical" = Ok v2 /\
    v2 <= v1.
Proof.
  intros Hne H0 H12 H1. rewrite !calculate_var_historical.
  destruct (np_percentile_mono returns ((1 - c2) * 100) ((1 - c1) * 100) Hne)
    as (v2 & v1 & E2 & E1 & Hle); [lra|lra|lra|].
  exists v1, v2. auto.
Qed.

(** The historical VaR is never above the greatest return of the sample. *)
Theorem historical_var_at_most_greatest_return (returns : list Q)
    (confidence_level : Q) :
  returns <> [] -> 0 <= confidence_level -> confidence_level <= 1 ->
  exists v greatest,
    calculate_var np_sqrt returns confidence_level "historical" = Ok v /\
    In greatest returns /\ (forall r, In r returns -> r <= greatest) /\
    v <= greatest.
Proof.
  intros Hne H0 H1. rewrite calculate_var_historical.
  destruct (np_percentile_le_max returns ((1 - confidence_level) * 100) Hne)
    as (v & Hv & m & Hin & Hmax & Hle); [lra|lra|].
  exists v, m. auto.
Qed.

(** A historical VaR outside the sample's confidence range is refused: a
    confidence level above 1 or below 0 makes the percentile rank leave
    [0, 100], and the invalid-argument error of the percentile comes
    through. *)
Theorem historical_var_confidence_out_of_range (returns : list Q)
    (confidence_level : Q) :
  confidence_level < 0 \/ 1 < confidence_level ->
  is_value_error (calculate_var np_sqrt returns confidence_level "historical").
Proof.
  intros H. rewrite calculate_var_historical. unfold np_percentile.
  set (q := (1 - confidence_level) * 100).
  assert (Hq : Qle_bool 0 q && Qle_bool q 100 = false).
  { apply andb_false_iff. destruct H as [H|H]; [right|left];
      apply not_true_is_false; intros E; apply Qle_bool_iff in E;
      subst q; lra. }
  rewrite Hq. exact I.
Qed.

(** The expected shortfall is never above the VaR it is taken at: on a
    non-empty sample and for a level in [0, 1] both exist, and the mean of
    the returns at or below the VaR is at most the VaR. *)
Theorem expected_shortfall_at_most_var (returns : list Q) (confidence_level : Q) :
  returns <> [] -> 0 <= confidence_level -> confidence_level <= 1 ->
  exists v es,
    calculate_var np_sqrt returns confidence_level "historical" = Ok v /\
    calculate_expected_shortfall np_sqrt returns confidence_level = Ok es /\
    es <= v.
Proof.
  intros Hne H0 H1. unfold calculate_expected_shortfall.
  rewrite calculate_var_historical.
  destruct (np_percentile_ge_min returns ((1 - confidence_level) * 100) Hne)
    as (v & Hv & m & Hin & _ & Hmv); [lra|lra|].
  rewrite Hv. cbn [mbind outcome_mbind outcome_bind].
  assert (Hmask : np_mask_le returns v <> [])
    by exact (np_mask_le_nonempty _ _ _ Hin Hmv).
  assert (Hall : Forall (fun r => r <= v) (np_mask_le returns v)).
  { apply List.Forall_forall. intros r Hr. unfold np_mask_le in Hr.
    apply List.filter_In in Hr. destruct Hr as [_ Hr]. now apply Qle_bool_iff. }
  destruct (np_mean_le _ v Hmask Hall) as (es & Hes & Hle).
  exists v, es. auto.
Qed.

(** With a square root that is never negative, the parametric VaR at 0.99
    is at most the one at 0.95, and both are at most the mean. *)
Theorem parametric_var_99_le_var_95 (returns : list Q) :
  (forall x, 0 <= np_sqrt x) ->
  returns <> [] ->
  exists mean v95 v99,
    np_mean returns = Ok mean /\
    calculate_var np_sqrt returns 0.95 "parametric" = Ok v95 /\
    calculate_var np_sqrt returns 0.99 "parametric" = Ok v99 /\
    v99 <= v95 /\ v95 <= mean.
Proof.
  intros Hsqrt Hne. unfold calculate_var. cbn [String.eqb Ascii.eqb Bool.eqb].
  destruct returns as [|r returns]; [contradiction|].
  unfold np_std. cbn [np_mean mbind outcome_mbind outcome_bind].
  eexists _, _, _. split; [reflexivity|].
  split; [reflexivity|]. split; [reflexivity|].
  match goal with
  | |- context [np_sqrt ?v] => pose proof (Hsqrt v); set (s := np_sqrt v) in *
  end.
  change (Qeq_bool 0.99 0.95) with false.
  change (Qeq_bool 0.95 0.95) with true. cbv iota.
  set (mean := _ / _). split; lra.
Qed.

(** What is asked of the square root below: zero at zero. *)
Hypothesis np_sqrt_zero : forall x, x == 0 -> np_sqrt x == 0.

(** With fewer than two returns the Sharpe ratio is zero: an empty sample
    is answered at once, and a single return has a standard deviation of
    zero, so the division is not attempted; this at every risk-free rate. *)
Theorem calculate_sharpe_ratio_short_sample (returns : list Q)
    (risk_free_rate : Q) :
  (length returns <= 1)%nat ->
  calculate_sharpe_ratio np_sqrt returns risk_free_rate = Ok 0.
Proof.
  intros Hlen. destruct returns as [|x [|y rest]].
  - reflexivity.
  - exact (calculate_sharpe_ratio_singleton np_sqrt np_sqrt_zero x risk_free_rate).
  - cbn [length] in Hlen. lia.
Qed.

End Statistics.

(** ** The snapshot of [calculate_portfolio_metrics] *)

Lemma Qabs_fold_right_Qplus (l : list Q) :
  Qabs (fold_right Qplus 0 l) <= fold_right Qplus 0 (List.map Qabs l).
Proof.
  induction l as [|x l IH]; cbn [fold_right List.map].
  - discriminate.
  - eapply Qle_trans; [apply Qabs_triangle|]. lra.
Qed.

Lemma positions_exposure_bounds_value (m : gmap string Position) :
  Qabs (positions_value m) <= positions_exposure m.
Proof.
  unfold positions_value, positions_exposure, py_sum.
  rewrite !fold_left_Qplus, !Qplus_0_l.
  replace ((fun pos => Qabs (market_value pos)) <$> dict_values m)
    with (List.map Qabs (market_value <$> dict_values m))
    by (rewrite List.map_map; reflexivity).
  apply Qabs_fold_right_Qplus.
Qed.

Lemma calculate_max_drawdown_Ok_nonneg (equity_curve : list Q) (d : Q) :
  calculate_max_drawdown equity_curve = Ok d -> 0 <= d.
Proof.
  unfold calculate_max_drawdown.
  destruct equity_curve as [|first rest]; [discriminate|].
  pose proof (drawdown_fold_nonneg (first :: rest) (Ok (first, 0))) as H.
  destruct (fold_left _ _ _) as [[peak max_dd]|e]; cbn; [|discriminate].
  intros [= <-]. apply H. cbn. discriminate.
Qed.

Lemma scaled_by_zero (b : bool) (x : outcome Q) (a : Q) :
  (if b then v ← x; Ok (v * 0) else Ok 0) = Ok a -> a == 0.
Proof.
  destruct b; [|intros [= <-]; reflexivity].
  destruct x as [v|e]; cbn; [|discriminate]. intros [= <-]. ring.
Qed.

Ltac metrics_steps H :=
  repeat match type of H with
  | context [mbind _ ?x] =>
      let E := fresh "E" in
      destruct x eqn:E; cbn [mbind outcome_mbind outcome_bind] in H;
      [|discriminate H]
  end.

Section Snapshot.

Variable np_sqrt : Q -> Q.

(** Every snapshot is consistent with the ledger it was taken from: its
    portfolio value and exposure are the sums over the positions, the
    exposure is at least the absolute portfolio value, the maximum drawdown
    is not negative, beta is the placeholder 1 and the risk level is the
    classification of the snapshot's own drawdown, VaR and portfolio
    value. *)
Theorem portfolio_metrics_consistent (self : RiskManager) (m : RiskMetrics) :
  calculate_portfolio_metrics np_sqrt self = Ok m ->
  portfolio_value m = positions_value (positions self) /\
  total_exposure m = positions_exposure (positions self) /\
  Qabs (portfolio_value m) <= total_exposure m /\
  0 <= max_drawdown m /\
  beta m = 1 /\
  risk_level m
  = _determine_risk_level (max_drawdown m) (var_95 m) (portfolio_value m).
Proof.
  intros H. unfold calculate_portfolio_metrics in H. metrics_steps H.
  injection H as <-. cbn.
  split; [reflexivity|]. split; [reflexivity|].
  split; [apply positions_exposure_bounds_value|].
  split; [|split; reflexivity].
  eapply calculate_max_drawdown_Ok_nonneg. eassumption.
Qed.

Lemma np_diff_length (a : list Q) :
  length (np_diff a) = (length a - 1)%nat.
Proof.
  induction a as [|x [|y a] IH]; cbn [np_diff length] in *; [lia|lia|].
  rewrite IH. lia.
Qed.

Lemma removelast_length (a : list Q) :
  length (removelast a) = (length a - 1)%nat.
Proof.
  induction a as [|x [|y a] IH]; cbn [removelast length] in *; [lia|lia|].
  rewrite IH. lia.
Qed.

Lemma removelast_Forall (P : Q -> Prop) (a : list Q) :
  Forall P a -> Forall P (removelast a).
Proof.
  induction 1 as [|x a Hx Ha IH]; [constructor|].
  destruct a as [|y a]; [constructor|].
  change (removelast (x :: y :: a)) with (x :: removelast (y :: a)).
  now constructor.
Qed.

Lemma np_divide_defined (b : list Q) :
  Forall (fun v => ~ v == 0) b ->
  forall a, length a = length b ->
  exists r, np_divide a b = Ok r /\ length r = length b.
Proof.
  induction 1 as [|y b Hy _ IH]; intros a Hlen.
  - destruct a; [|discriminate]. now exists [].
  - destruct a as [|x a]; [discriminate|]. cbn [np_divide].
    apply Qeq_bool_false in Hy. rewrite Hy.
    destruct (IH a) as (r & -> & Hr); [cbn in Hlen; lia|].
    cbn [mbind outcome_mbind outcome_bind]. eexists. split; [reflexivity|].
    cbn [length]. now rewrite Hr.
Qed.

Lemma drawdown_fold_defined (values : list Q) :
  Forall (fun v => ~ v == 0) values ->
  forall peak max_dd, ~ peak == 0 ->
  exists peak' max_dd',
    fold_left calculate_max_drawdown_step values (Ok (peak, max_dd))
    = Ok (peak', max_dd').
Proof.
  induction 1 as [|v values Hv _ IH]; intros peak max_dd Hp; cbn [fold_left].
  - now exists peak, max_dd.
  - unfold calculate_max_drawdown_step at 2.
    cbn [mbind outcome_mbind outcome_bind].
    set (peak' := if Qltb peak v then v else peak).
    assert (Hp' : ~ peak' == 0) by (subst peak'; destruct (Qltb peak v); assumption).
    rewrite (py_div_defined _ _ Hp'). cbn [mbind outcome_mbind outcome_bind].
    now apply IH.
Qed.

Lemma calculate_sharpe_ratio_defined (returns : list Q) (risk_free_rate : Q) :
  exists s, calculate_sharpe_ratio np_sqrt returns risk_free_rate = Ok s.
Proof.
  unfold calculate_sharpe_ratio.
  destruct returns as [|r returns]; [now exists 0|]. cbn [length Nat.eqb].
  set (excess := List.map _ _).
  assert (Hne : excess <> []) by discriminate.
  destruct (np_std_defined np_sqrt excess Hne) as [s ->].
  destruct (np_mean_defined excess Hne) as [m ->].
  cbn [mbind outcome_mbind outcome_bind].
  destruct (Qeq_bool s 0); eexists; reflexivity.
Qed.

Lemma calculate_expected_shortfall_defined (returns : list Q)
    (confidence_level : Q) :
  returns <> [] -> 0 <= confidence_level -> confidence_level <= 1 ->
  exists es, calculate_expected_shortfall np_sqrt returns confidence_level = Ok es.
Proof.
  intros Hne H0 H1. unfold calculate_expected_shortfall.
  rewrite calculate_var_historical.
  destruct (np_percentile_ge_min returns ((1 - confidence_level) * 100) Hne)
    as (v & -> & m & Hin & _ & Hmv); [lra|lra|].
  cbn [mbind outcome_mbind outcome_bind].
  apply np_mean_defined. exact (np_mask_le_nonempty _ _ _ Hin Hmv).
Qed.

(** On a non-empty equity curve without a zero entry every step of
    [calculate_portfolio_metrics] is defined. *)
Lemma calculate_portfolio_metrics_defined (self : RiskManager) :
  equity_curve self <> [] ->
  Forall (fun v => ~ v == 0) (equity_curve self) ->
  exists m, calculate_portfolio_metrics np_sqrt self = Ok m.
Proof.
  intros Hne Hnz. unfold calculate_portfolio_metrics.
  assert (Hret : exists returns,
    (if (1 <? length (equity_curve self))%nat
     then np_divide (np_diff (equity_curve self)) (removelast (equity_curve self))
     else Ok [0]) = Ok returns /\ returns <> []).
  { destruct (1 <? length (equity_curve self))%nat eqn:E.
    - apply Nat.ltb_lt in E.
      destruct (np_divide_defined (removelast (equity_curve self))
                  (removelast_Forall _ _ Hnz) (np_diff (equity_curve self)))
        as (r & Hr & Hlen).
      + now rewrite np_diff_length, removelast_length.
      + exists r. split; [exact Hr|].
        rewrite removelast_length in Hlen. destruct r; [cbn in Hlen; lia|discriminate].
    - exists [0]. split; [reflexivity|discriminate]. }
  destruct Hret as (returns & -> & Hr).
  cbn [mbind outcome_mbind outcome_bind].
  assert (Hlen : (0 <? length returns)%nat = true)
    by (apply Nat.ltb_lt; destruct returns; [contradiction|cbn; lia]).
  rewrite Hlen.
  destruct (np_percentile_mono returns ((1 - 0.99) * 100) ((1 - 0.95) * 100) Hr)
    as (v99 & v95 & H99 & H95 & _); [lra|lra|lra|].
  rewrite !calculate_var_historical, H95, H99.
  destruct (calculate_expected_shortfall_defined returns 0.95 Hr) as [es ->];
    [lra|lra|].
  cbn [mbind outcome_mbind outcome_bind].
  assert (Hdd : exists d, calculate_max_drawdown (equity_curve self) = Ok d).
  { unfold calculate_max_drawdown.
    destruct (equity_curve self) as [|first rest]; [contradiction|].
    assert (Hf : ~ first == 0) by (inversion Hnz; assumption).
    destruct (drawdown_fold_defined _ Hnz first 0 Hf) as (p & d & ->).
    cbn [mbind outcome_mbind outcome_bind]. now exists d. }
  destruct Hdd as [d ->].
  destruct (calculate_sharpe_ratio_defined returns 0.02) as [sh ->].
  destruct (np_std_defined np_sqrt returns Hr) as [sd ->].
  cbn [mbind outcome_mbind outcome_bind]. eexists. reflexivity.
Qed.

(** With no open position, on a non-empty equity curve without a zero entry
    (so that every period return is a finite number), the snapshot exists
    and its currency figures are all zero: portfolio value, exposure, both
    VaRs and the expected shortfall. *)
Theorem portfolio_metrics_without_positions (self : RiskManager) :
  positions self = ∅ ->
  equity_curve self <> [] ->
  Forall (fun v => ~ v == 0) (equity_curve self) ->
  exists m,
    calculate_portfolio_metrics np_sqrt self = Ok m /\
    portfolio_value m == 0 /\ total_exposure m == 0 /\
    var_95 m == 0 /\ var_99 m == 0 /\ expected_shortfall m == 0.
Proof.
  intros Hempty Hne Hnz.
  destruct (calculate_portfolio_metrics_defined self Hne Hnz) as [m H].
  exists m. split; [exact H|].
  unfold calculate_portfolio_metrics in H. rewrite Hempty in H.
  assert (Hpv : positions_value (∅ : gmap string Position) = 0) by reflexivity.
  assert (Hex : positions_exposure (∅ : gmap string Position) = 0) by reflexivity.
  rewrite Hpv, Hex in H. metrics_steps H.
  injection H as <-. cbn.
  split; [reflexivity|]. split; [reflexivity|].
  repeat split;
    match goal with
    | |- ?x == 0 =>
        match goal with
        | E : _ = Ok x |- _ => exact (scaled_by_zero _ _ _ E)
        end
    end.
Qed.

End Snapshot.

(** ** Derived fields of a position, and the stop-loss test *)

(** The P&L of a position is its market value less its cost (quantity times
    entry price); with a nonzero entry price, [pnl_percent] returns, and the
    P&L is that percentage of the cost; with a zero entry price
    [pnl_percent] divides by zero. *)
Theorem position_pnl_consistent (self : Position) :
  pnl self == market_value self - quantity self * entry_price self /\
  (~ entry_price self == 0 ->
   exists v, pnl_percent self = Ok v /\
     pnl self == v / 100 * (quantity self * entry_price self)) /\
  (entry_price self == 0 -> pnl_percent self = Raise ZeroDivisionError).
Proof.
  split; [unfold pnl, market_value; ring|]. split.
  - intros H. unfold pnl_percent. rewrite (py_div_defined _ _ H).
    eexists. split; [reflexivity|]. unfold pnl. field. exact H.
  - intros H. unfold pnl_percent. now rewrite (py_div_zero _ _ H).
Qed.

(** After a price update on a held symbol the stop-loss test on the stored
    position looks at the new price: a long position (positive quantity)
    triggers exactly when the new price is at or below the stop, any other
    position exactly when it is at or above it. *)
Theorem check_stop_loss_after_update (self : RiskManager) (sym : string)
    (pos : Position) (new_price stop_loss_price : Q) :
  positions self !! sym = Some pos ->
  exists pos',
    positions (update_position_price sym new_price self).2 !! sym = Some pos' /\
    (0 < quantity pos ->
     (check_stop_loss pos' stop_loss_price = true <-> new_price <= stop_loss_price)) /\
    (quantity pos <= 0 ->
     (check_stop_loss pos' stop_loss_price = true <-> stop_loss_price <= new_price)).
Proof.
  intros H. rewrite (update_position_price_held _ _ _ _ H). cbn [snd].
  eexists. split; [cbn; apply lookup_insert_eq|].
  unfold check_stop_loss. cbn [quantity current_price set_current_price].
  split; intros Hq.
  - apply Qltb_true in Hq. rewrite Hq. apply Qle_bool_iff.
  - apply Qltb_false in Hq. rewrite Hq. apply Qle_bool_iff.
Qed.

(** ** The summary across bookings *)

Lemma scaled_defined (b : bool) (x : outcome Q) (p p' a : Q) :
  (if b then v ← x; Ok (v * p) else Ok 0) = Ok a ->
  exists a', (if b then v ← x; Ok (v * p') else Ok 0) = Ok a'.
Proof.
  destruct b; [|intros _; now exists 0].
  destruct x as [v|e]; cbn; [|discriminate]. intros _. eexists. reflexivity.
Qed.

Section Summary.

Variable np_sqrt : Q -> Q.

(** Whether a snapshot exists depends on the equity curve alone, and so do
    its drawdown, Sharpe ratio and volatility. *)
Lemma calculate_portfolio_metrics_same_curve (self self' : RiskManager)
    (m : RiskMetrics) :
  equity_curve self' = equity_curve self ->
  calculate_portfolio_metrics np_sqrt self = Ok m ->
  exists m',
    calculate_portfolio_metrics np_sqrt self' = Ok m' /\
    portfolio_value m' = positions_value (positions self') /\
    max_drawdown m' = max_drawdown m /\
    sharpe_ratio m' = sharpe_ratio m /\
    volatility m' = volatility m.
Proof.
  intros Heq H. unfold calculate_portfolio_metrics in *. rewrite Heq.
  metrics_steps H.
  repeat match goal with
  | E : ?lhs = Ok _ |- context [?lhs] => rewrite E
  | E : (if ?b then mbind _ ?x else Ok 0) = Ok _ |- _ =>
      let a' := fresh "a" in
      destruct (scaled_defined b x _ (positions_value (positions self')) _ E)
        as [a' ->]; clear E
  | |- _ => progress cbn [mbind outcome_mbind outcome_bind]
  end.
  eexists. split; [reflexivity|]. injection H as <-. cbn. auto.
Qed.

Lemma get_portfolio_summary_total_pnl (self : RiskManager)
    (d : list (string * pyval)) :
  get_portfolio_summary np_sqrt self = Ok d ->
  dict_get d "total_pnl"
  = Some (VFloat ((current_capital self + positions_value (positions self))
                  - initial_capital self)).
Proof.
  unfold get_portfolio_summary. intros H.
  destruct (calculate_portfolio_metrics np_sqrt self) as [m|e] eqn:E;
    cbn [mbind outcome_mbind outcome_bind] in H; [|discriminate H].
  injection H as <-.
  unfold calculate_portfolio_metrics in E. metrics_steps E.
  injection E as <-. reflexivity.
Qed.

Lemma get_portfolio_summary_same_curve (self self' : RiskManager)
    (d : list (string * pyval)) :
  equity_curve self' = equity_curve self ->
  get_portfolio_summary np_sqrt self = Ok d ->
  exists d', get_portfolio_summary np_sqrt self' = Ok d'.
Proof.
  intros Heq H. unfold get_portfolio_summary in *.
  destruct (calculate_portfolio_metrics np_sqrt self) as [m|e] eqn:E;
    cbn [mbind outcome_mbind outcome_bind] in H; [|discriminate H].
  destruct (calculate_portfolio_metrics_same_curve _ _ _ Heq E) as (m' & -> & _).
  cbn [mbind outcome_mbind outcome_bind]. eexists. reflexivity.
Qed.

(** The total P&L that the summary reports is not moved by trading at the
    mark: if the summary can be taken, it can still be taken after booking a
    symbol that was not held, and after closing a held one (initial capital
    nonzero), and its ['total_pnl'] entry is the same number. *)
Theorem summary_total_pnl_kept_by_trading (self : RiskManager) (sym : string)
    (d : list (string * pyval)) :
  get_portfolio_summary np_sqrt self = Ok d ->
  exists x, dict_get d "total_pnl" = Some (VFloat x) /\
  (forall quantity price now,
     positions self !! sym = None ->
     exists d' x',
       get_portfolio_summary np_sqrt
         (add_position sym quantity price now self).2 = Ok d' /\
       dict_get d' "total_pnl" = Some (VFloat x') /\ x' == x) /\
  (is_Some (positions self !! sym) ->
   ~ initial_capital self == 0 ->
   exists d' x',
     get_portfolio_summary np_sqrt (close_position sym self).2 = Ok d' /\
     dict_get d' "total_pnl" = Some (VFloat x') /\ x' == x).
Proof.
  intros H. eexists. split; [apply (get_portfolio_summary_total_pnl _ _ H)|].
  split.
  - intros quantity price now Habs.
    destruct (get_portfolio_summary_same_curve self
                (add_position sym quantity price now self).2 d) as [d' Hd'];
      [apply add_position_equity_curve|exact H|].
    eexists _, _. split; [exact Hd'|].
    split; [apply (get_portfolio_summary_total_pnl _ _ Hd')|].
    rewrite add_position_run. cbn.
    rewrite (positions_value_insert_fresh _ _ _ Habs). unfold market_value. cbn.
    ring.
  - intros [pos Hheld] Hic.
    destruct (get_portfolio_summary_same_curve self
                (close_position sym self).2 d) as [d' Hd'];
      [apply close_position_equity_curve|exact H|].
    eexists _, _. split; [exact Hd'|].
    split; [apply (get_portfolio_summary_total_pnl _ _ Hd')|].
    rewrite (close_position_held _ _ _ Hheld Hic). cbn.
    rewrite (positions_value_delete _ _ _ Hheld). ring.
Qed.

End Summary.

(** * The further properties on concrete inputs *)

Lemma sqrt_approx_nonneg (x : Q) : 0 <= sqrt_approx x.
Proof.
  unfold sqrt_approx, Qle. cbn [Qnum Qden].
  pose proof (Z.sqrt_nonneg (Qnum x * Z.pos (Qden x) * 10 ^ 32)). lia.
Qed.

Lemma add_position_fresh_symbol_keeps_total_value_witness :
  positions demo_manager !! "MSFT" = None /\
  let self' := (add_position "MSFT" 150 350 2 demo_manager).2 in
  current_capital self' + positions_value (positions self')
  == current_capital demo_manager + positions_value (positions demo_manager).
Proof.
  assert (H : positions demo_manager !! "MSFT" = None)
    by (vm_compute; reflexivity).
  split; [exact H|].
  exact (add_position_fresh_symbol_keeps_total_value demo_manager "MSFT"
           150 350 2 H).
Defined.

Lemma add_position_held_symbol_loses_old_value_witness :
  let old := mkPosition "AAPL" 100 150 150 0 in
  positions demo_manager !! "AAPL" = Some old /\
  let self' := (add_position "AAPL" 10 160 2 demo_manager).2 in
  current_capital self' + positions_value (positions self')
  == current_capital demo_manager + positions_value (positions demo_manager)
     - market_value old.
Proof.
  intros old.
  assert (H : positions demo_manager !! "AAPL" = Some old)
    by (vm_compute; reflexivity).
  split; [exact H|].
  exact (add_position_held_symbol_loses_old_value demo_manager "AAPL" old
           10 160 2 H).
Defined.

Lemma close_position_keeps_total_value_witness :
  let pos := mkPosition "AAPL" 100 150 150 0 in
  positions demo_manager !! "AAPL" = Some pos /\
  ~ initial_capital demo_manager == 0 /\
  let self' := (close_position "AAPL" demo_manager).2 in
  current_capital self' + positions_value (positions self')
  == current_capital demo_manager + positions_value (positions demo_manager).
Proof.
  intros pos.
  assert (H : positions demo_manager !! "AAPL" = Some pos)
    by (vm_compute; reflexivity).
  assert (Hic : ~ initial_capital demo_manager == 0)
    by (intros E; vm_compute in E; discriminate E).
  split; [exact H|]. split; [exact Hic|].
  exact (close_position_keeps_total_value demo_manager "AAPL" pos H Hic).
Defined.

Lemma update_position_price_held_effect_witness :
  let pos := mkPosition "AAPL" 100 150 150 0 in
  positions demo_manager !! "AAPL" = Some pos /\
  let self' := (update_position_price "AAPL" 155 demo_manager).2 in
  positions self' !! "AAPL" = Some (mkPosition "AAPL" 100 150 155 0) /\
  (forall other, other <> "AAPL" ->
     positions self' !! other = positions demo_manager !! other) /\
  positions_value (positions self')
    == positions_value (positions demo_manager) + 100 * (155 - 150) /\
  current_capital self' = current_capital demo_manager /\
  returns_history self' = returns_history demo_manager.
Proof.
  intros pos.
  assert (H : positions demo_manager !! "AAPL" = Some pos)
    by (vm_compute; reflexivity).
  split; [exact H|].
  exact (update_position_price_held_effect demo_manager "AAPL" pos 155 H).
Defined.

Lemma add_then_close_round_trip_witness :
  ~ initial_capital demo_manager == 0 /\
  let booked := (add_position "MSFT" 150 350 2 demo_manager).2 in
  exists v r self',
    close_position "MSFT" booked = (Ok v, self') /\
    v == 0 /\
    current_capital self' == current_capital demo_manager /\
    returns_history self' = returns_history demo_manager ++ [r] /\ r == 0 /\
    positions self' = delete "MSFT" (positions demo_manager) /\
    (positions demo_manager !! "MSFT" = None ->
     positions self' = positions demo_manager).
Proof.
  assert (Hic : ~ initial_capital demo_manager == 0)
    by (intros E; vm_compute in E; discriminate E).
  split; [exact Hic|].
  exact (add_then_close_round_trip demo_manager "MSFT" 150 350 2 Hic).
Defined.

Lemma close_position_twice_witness :
  let self' := (close_position "AAPL" demo_manager).2 in
  close_position "AAPL" demo_manager = (Ok 0, self') /\
  close_position "AAPL" self' = (Ok 0, self').
Proof.
  intros self'.
  assert (H : close_position "AAPL" demo_manager = (Ok 0, self'))
    by (vm_compute; reflexivity).
  split; [exact H|].
  exact (close_position_twice demo_manager self' "AAPL" 0 H).
Defined.

Lemma number_of_positions_witness :
  (positions demo_manager !! "MSFT" = None /\
   size (positions (add_position "MSFT" 150 350 2 demo_manager).2)
   = S (size (positions demo_manager))) /\
  (is_Some (positions demo_manager !! "AAPL") /\
   size (positions (add_position "AAPL" 10 160 2 demo_manager).2)
   = size (positions demo_manager)) /\
  (~ initial_capital demo_manager == 0 /\
   S (size (positions (close_position "AAPL" demo_manager).2))
   = size (positions demo_manager)).
Proof.
  assert (Habs : positions demo_manager !! "MSFT" = None)
    by (vm_compute; reflexivity).
  assert (Hheld : is_Some (positions demo_manager !! "AAPL"))
    by (eexists; vm_compute; reflexivity).
  assert (Hic : ~ initial_capital demo_manager == 0)
    by (intros E; vm_compute in E; discriminate E).
  destruct (number_of_positions demo_manager "MSFT") as (Hfresh & _ & _).
  destruct (number_of_positions demo_manager "AAPL") as (_ & Hover & Hclose).
  split; [split; [exact Habs|exact (Hfresh 150 350 2%Z Habs)]|].
  split; [split; [exact Hheld|exact (Hover 10 160 2%Z Hheld)]|].
  split; [exact Hic|exact (Hclose Hheld Hic)].
Defined.

Lemma calculate_position_size_within_exposure_limit_witness :
  let self := (add_position "AAPL" 100 150 0 (init 100000 0.10 0.02 0.05)).2 in
  0 < 180 /\ 0 <= current_capital self * max_position_size self /\
  exists n, calculate_position_size self 180 0.28 None = Ok n /\
    inject_Z n * 180 <= current_capital self * max_position_size self.
Proof.
  intros self.
  assert (Hp : 0 < 180) by reflexivity.
  assert (Hm : 0 <= current_capital self * max_position_size self)
    by (vm_compute; discriminate).
  split; [exact Hp|]. split; [exact Hm|].
  exact (calculate_position_size_within_exposure_limit self 180 0.28 None Hp Hm).
Defined.

Lemma calculate_position_size_within_risk_limit_witness :
  let self := (add_position "AAPL" 100 150 0 (init 100000 0.10 0.02 0.05)).2 in
  0 < 180 /\ 0 < stop_loss_percent self /\
  0 <= current_capital self * default (max_portfolio_risk self) None /\
  exists n, calculate_position_size self 180 0.28 None = Ok n /\
    inject_Z n * (180 * stop_loss_percent self)
    <= current_capital self * default (max_portfolio_risk self) None.
Proof.
  intros self.
  assert (Hp : 0 < 180) by reflexivity.
  assert (Hs : 0 < stop_loss_percent self) by reflexivity.
  assert (Hr : 0 <= current_capital self * default (max_portfolio_risk self) None)
    by (vm_compute; discriminate).
  split; [exact Hp|]. split; [exact Hs|]. split; [exact Hr|].
  exact (calculate_position_size_within_risk_limit self 180 0.28 None Hp Hs Hr).
Defined.

Lemma calculate_position_size_zero_price_witness :
  0 == 0 /\
  calculate_position_size demo_manager 0 0.28 None = Raise ZeroDivisionError.
Proof.
  assert (H : 0 == 0) by reflexivity.
  split; [exact H|].
  exact (calculate_position_size_zero_price demo_manager 0 0.28 None H).
Defined.

Lemma calculate_max_drawdown_rising_curve_witness :
  0 < 100 /\ Sorted Qle [100; 100; 120; 130] /\
  calculate_max_drawdown [100; 100; 120; 130] = Ok 0.
Proof.
  assert (Hp : 0 < 100) by reflexivity.
  assert (Hs : Sorted Qle [100; 100; 120; 130])
    by (repeat constructor; discriminate).
  split; [exact Hp|]. split; [exact Hs|].
  exact (calculate_max_drawdown_rising_curve 100 [100; 120; 130] Hp Hs).
Defined.

Lemma calculate_max_drawdown_zero_start_witness :
  0 == 0 /\ calculate_max_drawdown [0; 100; 90] = Raise ZeroDivisionError.
Proof.
  assert (H : 0 == 0) by reflexivity.
  split; [exact H|].
  exact (calculate_max_drawdown_zero_start 0 [100; 90] H).
Defined.

Lemma calculate_max_drawdown_dominates_declines_witness :
  let curve := [100] ++ 120 :: [110] ++ 90 :: [130] in
  Forall (fun v => 0 <= v) curve /\ ~ hd 0 curve == 0 /\ 0 < 120 /\
  exists d, calculate_max_drawdown curve = Ok d /\ (120 - 90) / 120 <= d.
Proof.
  intros curve.
  assert (Hall : Forall (fun v => 0 <= v) curve)
    by (repeat constructor; discriminate).
  assert (Hhd : ~ hd 0 curve == 0)
    by (intros E; vm_compute in E; discriminate E).
  assert (Hh : 0 < 120) by reflexivity.
  split; [exact Hall|]. split; [exact Hhd|]. split; [exact Hh|].
  exact (calculate_max_drawdown_dominates_declines [100] [110] [130] 120 90
           Hall Hhd Hh).
Defined.

Lemma risk_level_monotone_in_drawdown_witness :
  0.10 <= 0.20 /\
  (severity (_determine_risk_level 0.10 0 100000)
   <= severity (_determine_risk_level 0.20 0 100000))%nat.
Proof.
  assert (H : 0.10 <= 0.20) by (vm_compute; discriminate).
  split; [exact H|].
  exact (risk_level_monotone_in_drawdown 0.10 0.20 0 100000 H).
Defined.

Lemma risk_level_ignores_var_without_value_witness :
  0 <= 0 /\
  _determine_risk_level 0.10 (- 5000) 0 = _determine_risk_level 0.10 0 0.
Proof.
  assert (H : 0 <= 0) by (vm_compute; discriminate).
  split; [exact H|].
  exact (risk_level_ignores_var_without_value 0.10 (- 5000) 0 0 H).
Defined.

Lemma risk_level_drawdown_bands_witness :
  0.25 < 0.30 /\ _determine_risk_level 0.30 (- 5000) 100000 = CRITICAL /\
  (0 == 0 \/ 100000 <= 0) /\
  (let level := _determine_risk_level 0.25 0 100000 in
   (level = CRITICAL <-> 0.25 < 0.25) /\
   (level = HIGH <-> 0.15 < 0.25 /\ 0.25 <= 0.25) /\
   (level = MEDIUM <-> 0.08 < 0.25 /\ 0.25 <= 0.15) /\
   (level = LOW <-> 0.25 <= 0.08)).
Proof.
  assert (Hd : 0.25 < 0.30) by reflexivity.
  assert (Hv : 0 == 0 \/ 100000 <= 0) by (left; reflexivity).
  split; [exact Hd|].
  split; [exact (proj1 (risk_level_drawdown_bands 0.30 (- 5000) 100000) Hd)|].
  split; [exact Hv|].
  exact (proj2 (risk_level_drawdown_bands 0.25 0 100000) Hv).
Defined.

Lemma calculate_var_unknown_method_witness :
  "monte_carlo" <> "historical" /\ "monte_carlo" <> "parametric" /\
  calculate_var sqrt_approx demo_returns 0.95 "monte_carlo"
  = Raise (ValueError ("Unknown method: " ++ "monte_carlo")).
Proof.
  assert (Hh : "monte_carlo" <> "historical") by discriminate.
  assert (Hp : "monte_carlo" <> "parametric") by discriminate.
  split; [exact Hh|]. split; [exact Hp|].
  exact (calculate_var_unknown_method sqrt_approx demo_returns 0.95
           "monte_carlo" Hh Hp).
Defined.

Lemma historical_var_decreases_with_confidence_witness :
  demo_returns <> [] /\ 0 <= 0.90 /\ 0.90 <= 0.99 /\ 0.99 <= 1 /\
  exists v1 v2,
    calculate_var sqrt_approx demo_returns 0.90 "historical" = Ok v1 /\
    calculate_var sqrt_approx demo_returns 0.99 "historical" = Ok v2 /\
    v2 <= v1.
Proof.
  assert (Hne : demo_returns <> []) by discriminate.
  assert (H0 : 0 <= 0.90) by (vm_compute; discriminate).
  assert (H12 : 0.90 <= 0.99) by (vm_compute; discriminate).
  assert (H1 : 0.99 <= 1) by (vm_compute; discriminate).
  split; [exact Hne|]. split; [exact H0|]. split; [exact H12|].
  split; [exact H1|].
  exact (historical_var_decreases_with_confidence sqrt_approx demo_returns
           0.90 0.99 Hne H0 H12 H1).
Defined.

Lemma historical_var_at_most_greatest_return_witness :
  demo_returns <> [] /\ 0 <= 0.95 /\ 0.95 <= 1 /\
  exists v greatest,
    calculate_var sqrt_approx demo_returns 0.95 "historical" = Ok v /\
    In greatest demo_returns /\
    (forall r, In r demo_returns -> r <= greatest) /\
    v <= greatest.
Proof.
  assert (Hne : demo_returns <> []) by discriminate.
  assert (H0 : 0 <= 0.95) by (vm_compute; discriminate).
  assert (H1 : 0.95 <= 1) by (vm_compute; discriminate).
  split; [exact Hne|]. split; [exact H0|]. split; [exact H1|].
  exact (historical_var_at_most_greatest_return sqrt_approx demo_returns 0.95
           Hne H0 H1).
Defined.

Lemma historical_var_confidence_out_of_range_witness :
  (1.5 < 0 \/ 1 < 1.5) /\
  is_value_error (calculate_var sqrt_approx demo_returns 1.5 "historical").
Proof.
  assert (H : 1.5 < 0 \/ 1 < 1.5) by (right; reflexivity).
  split; [exact H|].
  exact (historical_var_confidence_out_of_range sqrt_approx demo_returns 1.5 H).
Defined.

Lemma expected_shortfall_at_most_var_witness :
  demo_returns <> [] /\ 0 <= 0.95 /\ 0.95 <= 1 /\
  exists v es,
    calculate_var sqrt_approx demo_returns 0.95 "historical" = Ok v /\
    calculate_expected_shortfall sqrt_approx demo_returns 0.95 = Ok es /\
    es <= v.
Proof.
  assert (Hne : demo_returns <> []) by discriminate.
  assert (H0 : 0 <= 0.95) by (vm_compute; discriminate).
  assert (H1 : 0.95 <= 1) by (vm_compute; discriminate).
  split; [exact Hne|]. split; [exact H0|]. split; [exact H1|].
  exact (expected_shortfall_at_most_var sqrt_approx demo_returns 0.95
           Hne H0 H1).
Defined.

Lemma parametric_var_99_le_var_95_witness :
  (forall x, 0 <= sqrt_approx x) /\ demo_returns <> [] /\
  exists mean v95 v99,
    np_mean demo_returns = Ok mean /\
    calculate_var sqrt_approx demo_returns 0.95 "parametric" = Ok v95 /\
    calculate_var sqrt_approx demo_returns 0.99 "parametric" = Ok v99 /\
    v99 <= v95 /\ v95 <= mean.
Proof.
  assert (Hne : demo_returns <> []) by discriminate.
  split; [exact sqrt_approx_nonneg|]. split; [exact Hne|].
  exact (parametric_var_99_le_var_95 sqrt_approx demo_returns
           sqrt_approx_nonneg Hne).
Defined.

Lemma calculate_sharpe_ratio_short_sample_witness :
  (forall x, x == 0 -> sqrt_approx x == 0) /\
  (length [0.01%Q] <= 1)%nat /\
  calculate_sharpe_ratio sqrt_approx [0.01] 0.02 = Ok 0.
Proof.
  assert (Hlen : (length [0.01%Q] <= 1)%nat) by (cbn; lia).
  split; [exact sqrt_approx_zero|]. split; [exact Hlen|].
  exact (calculate_sharpe_ratio_short_sample sqrt_approx sqrt_approx_zero
           [0.01] 0.02 Hlen).
Defined.

Lemma portfolio_metrics_consistent_witness :
  calculate_portfolio_metrics sqrt_approx demo_manager = Ok demo_metrics /\
  portfolio_value demo_metrics = positions_value (positions demo_manager) /\
  total_exposure demo_metrics = positions_exposure (positions demo_manager) /\
  Qabs (portfolio_value demo_metrics) <= total_exposure demo_metrics /\
  0 <= max_drawdown demo_metrics /\
  beta demo_metrics = 1 /\
  risk_level demo_metrics
  = _determine_risk_level (max_drawdown demo_metrics) (var_95 demo_metrics)
      (portfolio_value demo_metrics).
Proof.
  assert (H : calculate_portfolio_metrics sqrt_approx demo_manager
              = Ok demo_metrics) by (vm_compute; reflexivity).
  split; [exact H|].
  exact (portfolio_metrics_consistent sqrt_approx demo_manager demo_metrics H).
Defined.

Lemma portfolio_metrics_without_positions_witness :
  let self := init 100000 0.10 0.02 0.05 in
  positions self = ∅ /\
  equity_curve self <> [] /\
  Forall (fun v => ~ v == 0) (equity_curve self) /\
  exists m,
    calculate_portfolio_metrics sqrt_approx self = Ok m /\
    portfolio_value m == 0 /\ total_exposure m == 0 /\
    var_95 m == 0 /\ var_99 m == 0 /\ expected_shortfall m == 0.
Proof.
  intros self.
  assert (He : positions self = ∅) by reflexivity.
  assert (Hne : equity_curve self <> []) by discriminate.
  assert (Hnz : Forall (fun v => ~ v == 0) (equity_curve self))
    by (repeat constructor; intros E; vm_compute in E; discriminate E).
  split; [exact He|]. split; [exact Hne|]. split; [exact Hnz|].
  exact (portfolio_metrics_without_positions sqrt_approx self He Hne Hnz).
Defined.

Lemma position_pnl_consistent_witness :
  let pos := mkPosition "AAPL" 100 100 105 0 in
  let unpriced := mkPosition "AAPL" 100 0 105 0 in
  pnl pos == market_value pos - quantity pos * entry_price pos /\
  (~ entry_price pos == 0 /\
   exists v, pnl_percent pos = Ok v /\
     pnl pos == v / 100 * (quantity pos * entry_price pos)) /\
  (entry_price unpriced == 0 /\ pnl_percent unpriced = Raise ZeroDivisionError).
Proof.
  intros pos unpriced.
  assert (Hnz : ~ entry_price pos == 0)
    by (intros E; vm_compute in E; discriminate E).
  assert (Hz : entry_price unpriced == 0) by reflexivity.
  destruct (position_pnl_consistent pos) as (Hpnl & Hpct & _).
  destruct (position_pnl_consistent unpriced) as (_ & _ & Hraise).
  split; [exact Hpnl|]. split; [split; [exact Hnz|exact (Hpct Hnz)]|].
  split; [exact Hz|exact (Hraise Hz)].
Defined.

Lemma check_stop_loss_after_update_witness :
  let pos := mkPosition "AAPL" 100 150 150 0 in
  positions demo_manager !! "AAPL" = Some pos /\
  exists pos',
    positions (update_position_price "AAPL" 140 demo_manager).2 !! "AAPL"
    = Some pos' /\
    (0 < quantity pos ->
     (check_stop_loss pos' 142.5 = true <-> 140 <= 142.5)) /\
    (quantity pos <= 0 ->
     (check_stop_loss pos' 142.5 = true <-> 142.5 <= 140)).
Proof.
  intros pos.
  assert (H : positions demo_manager !! "AAPL" = Some pos)
    by (vm_compute; reflexivity).
  split; [exact H|].
  exact (check_stop_loss_after_update demo_manager "AAPL" pos 140 142.5 H).
Defined.

Lemma summary_total_pnl_kept_by_trading_witness :
  get_portfolio_summary sqrt_approx demo_manager = Ok demo_summary /\
  positions demo_manager !! "MSFT" = None /\
  is_Some (positions demo_manager !! "AAPL") /\
  ~ initial_capital demo_manager == 0 /\
  (exists x, dict_get demo_summary "total_pnl" = Some (VFloat x) /\
     exists d' x',
       get_portfolio_summary sqrt_approx
         (add_position "MSFT" 150 350 2 demo_manager).2 = Ok d' /\
       dict_get d' "total_pnl" = Some (VFloat x') /\ x' == x) /\
  (exists x, dict_get demo_summary "total_pnl" = Some (VFloat x) /\
     exists d' x',
       get_portfolio_summary sqrt_approx
         (close_position "AAPL" demo_manager).2 = Ok d' /\
       dict_get d' "total_pnl" = Some (VFloat x') /\ x' == x).
Proof.
  assert (H : get_portfolio_summary sqrt_approx demo_manager = Ok demo_summary)
    by (vm_compute; reflexivity).
  assert (Habs : positions demo_manager !! "MSFT" = None)
    by (vm_compute; reflexivity).
  assert (Hheld : is_Some (positions demo_manager !! "AAPL"))
    by (eexists; vm_compute; reflexivity).
  assert (Hic : ~ initial_capital demo_manager == 0)
    by (intros E; vm_compute in E; discriminate E).
  split; [exact H|]. split; [exact Habs|]. split; [exact Hheld|].
  split; [exact Hic|]. split.
  - destruct (summary_total_pnl_kept_by_trading sqrt_approx demo_manager
                "MSFT" demo_summary H) as (x & Hx & Hadd & _).
    exists x. split; [exact Hx|]. exact (Hadd 150 350 2%Z Habs).
  - destruct (summary_total_pnl_kept_by_trading sqrt_approx demo_manager
                "AAPL" demo_summary H) as (x & Hx & _ & Hclose).
    exists x. split; [exact Hx|]. exact (Hclose Hheld Hic).
Defined.
